(** * todo-app: the QR scanner session and the submission handler of [src/App.jsx]

    A shallow embedding of the two React components of [App.jsx]:
    - [QrScanner]: the camera stream, the sampling timer and the two refs
      ([streamRef], [scanIntervalRef]) that [startCamera], [startScanning]
      and [stopCamera] read and write;
    - [TodoApp]: the four state cells ([taskInput], [isLoading], [message],
      [showQrScanner]), the asynchronous [handleAddTask], [handleQrScan] and
      the event handlers wired in the JSX.

    JavaScript strings are sequences of UTF-16 code units, parsed JSON is an
    inductive type, exceptions are an error monad, and an [async] function is
    its synchronous prefix together with the continuation that runs when the
    awaited promise settles. *)

From Stdlib Require Import List String Ascii Bool NArith PArith Arith QArith Lia.
Import ListNotations.

Set Implicit Arguments.
Set Warnings "-register-all".

(* ================================================================== *)
(** ** JavaScript strings *)

Module JsString.

(** A string value: its UTF-16 code units, in order. *)
Definition jsstring : Type := list N.

(** A source literal written in ASCII. *)
Definition lit (s : string) : jsstring :=
  map N_of_ascii (list_ascii_of_string s).

Fixpoint eqb (a b : jsstring) : bool :=
  match a, b with
  | [], [] => true
  | x :: a', y :: b' => N.eqb x y && eqb a' b'
  | _, _ => false
  end.

(** Truthiness of a string: every string but the empty one. *)
Definition truthy (s : jsstring) : bool :=
  match s with [] => false | _ :: _ => true end.

(** The code units [String.prototype.trim] strips: ECMAScript WhiteSpace
    (TAB, VT, FF, SP, NBSP, ZWNBSP and the Unicode Zs category) and
    LineTerminator (LF, CR, LS, PS). *)
Definition isWhiteSpace (c : N) : bool :=
  ((0x09 <=? c) && (c <=? 0x0D)
   || (c =? 0x20) || (c =? 0xA0) || (c =? 0x1680)
   || (0x2000 <=? c) && (c <=? 0x200A)
   || (c =? 0x2028) || (c =? 0x2029) || (c =? 0x202F)
   || (c =? 0x205F) || (c =? 0x3000) || (c =? 0xFEFF))%N.

Fixpoint trimStart (s : jsstring) : jsstring :=
  match s with
  | [] => []
  | c :: t => if isWhiteSpace c then trimStart t else s
  end.

Definition trimEnd (s : jsstring) : jsstring := rev (trimStart (rev s)).

(** [s.trim()] *)
Definition trim (s : jsstring) : jsstring := trimEnd (trimStart s).

(** [s.slice(0, n)] for [n >= 0]: the first [n] code units (all of [s]
    when it is shorter). *)
Definition slice0 (n : nat) (s : jsstring) : jsstring := firstn n s.

(** [parts.join(sep)] on an array of strings. *)
Fixpoint join (sep : jsstring) (parts : list jsstring) : jsstring :=
  match parts with
  | [] => []
  | [p] => p
  | p :: rest => p ++ sep ++ join sep rest
  end.

(** [hay.includes(needle)] as a proposition. *)
Definition includes (hay needle : jsstring) : Prop :=
  exists pre post, hay = pre ++ needle ++ post.

Fixpoint startsWithb (s prefix : jsstring) {struct prefix} : bool :=
  match prefix, s with
  | [], _ => true
  | x :: prefix', y :: s' => N.eqb x y && startsWithb s' prefix'
  | _ :: _, [] => false
  end.

(** [hay.includes(needle)] *)
Fixpoint includesb (hay needle : jsstring) : bool :=
  startsWithb hay needle
  || match hay with
     | [] => false
     | _ :: rest => includesb rest needle
     end.

(** Upper-casing of the ASCII letters, every other code unit kept: what
    [toUpperCase] does on a string of ASCII code units. *)
Definition asciiUpper (c : N) : N :=
  if ((0x61 <=? c) && (c <=? 0x7A))%N then (c - 0x20)%N else c.

Definition asciiToUpperCase (s : jsstring) : jsstring := map asciiUpper s.

End JsString.
Import JsString.

(** The host environment: what the engine and the build supply.
    [toUpperCase] is the engine's [String.prototype.toUpperCase] (the full
    Unicode mapping, which may change the length of a string);
    [VITE_API_BASE_URL] is [import.meta.env?.VITE_API_BASE_URL]. *)
Class Host : Type := {
  toUpperCase : jsstring -> jsstring;
  VITE_API_BASE_URL : option jsstring
}.

(** A host whose strings are ASCII and whose build sets no base URL. *)
Definition asciiHost : Host :=
  {| toUpperCase := asciiToUpperCase; VITE_API_BASE_URL := None |}.

(* ================================================================== *)
(** ** Exceptions *)

Module Completion.

Inductive exn : Type :=
| TypeError                       (* property read on null/undefined, call of a non-function *)
| SyntaxError                     (* [response.json()] on a body that is not JSON *)
| FetchRejected                   (* [fetch] rejected: network error *)
| Error (msg : jsstring).         (* [throw new Error(msg)] *)

(** The completion of an expression or statement list: a value, or a
    thrown exception. *)
Inductive completion (A : Type) : Type :=
| Normal (a : A)
| Throw (e : exn).
Arguments Throw {A} e.

Definition bind {A B} (c : completion A) (k : A -> completion B) : completion B :=
  match c with
  | Normal a => k a
  | Throw e => Throw e
  end.

(** [try { body } catch (err) { handler }] *)
Definition tryCatch {A} (body : completion A) (handler : exn -> A) : A :=
  match body with
  | Normal a => a
  | Throw e => handler e
  end.

Definition throws {A} (c : completion A) : bool :=
  match c with Normal _ => false | Throw _ => true end.

End Completion.
Import Completion.

Notation "x <- c ;; k" := (bind c (fun x => k))
  (at level 61, c at next level, right associativity).

(* ================================================================== *)
(** ** Parsed JSON and property access *)

Module Json.

(** What [response.json()] resolves to. A number is carried by its
    [Number::toString] rendering (the program does no arithmetic on
    response data); an object by its own properties, each name once, as
    [JSON.parse] builds it. *)
Inductive json : Type :=
| JNull
| JBool (b : bool)
| JNum (repr : jsstring)
| JStr (s : jsstring)
| JArr (elems : list json)
| JObj (props : list (jsstring * json)).

(** A JavaScript value reachable from parsed JSON: [undefined] or a JSON
    value. *)
Inductive value : Type :=
| Undefined
| Val (j : json).

Definition nullish (v : value) : bool :=
  match v with
  | Undefined | Val JNull => true
  | _ => false
  end.

Fixpoint lookup (k : jsstring) (props : list (jsstring * json)) : value :=
  match props with
  | [] => Undefined
  | (k', j) :: rest => if JsString.eqb k k' then Val j else lookup k rest
  end.

(** [v[k]] on a value that is neither [null] nor [undefined], for the
    property names the program reads ([summary], [data], [output], [code],
    [email]): an object yields its own property or [undefined]; a boolean,
    number, string or array has no property of these names. *)
Definition ownProp (v : value) (k : jsstring) : value :=
  match v with
  | Val (JObj props) => lookup k props
  | _ => Undefined
  end.

(** [v.k]: a TypeError on [null] and [undefined]. *)
Definition getProp (v : value) (k : jsstring) : completion value :=
  if nullish v then Throw TypeError else Normal (ownProp v k).

(** [v?.k]: [undefined] on [null] and [undefined]. *)
Definition optProp (v : value) (k : jsstring) : value :=
  if nullish v then Undefined else ownProp v k.

(** [v === s] for a string literal [s]. *)
Definition strictEqStr (v : value) (s : jsstring) : bool :=
  match v with
  | Val (JStr t) => JsString.eqb t s
  | _ => false
  end.

(** The object has an own property of this name. *)
Definition hasOwn (k : jsstring) (props : list (jsstring * json)) : bool :=
  existsb (fun p => JsString.eqb k (fst p)) props.

(** ToString, as a template literal applies it to [${v}]. A primitive
    renders as itself. An array renders through [Array.prototype.join]:
    its elements in order, [null] as the empty string, separated by commas.
    An object renders through [Object.prototype.toString] unless it has an
    own [toString] property: parsed JSON holds no function, so that
    property is not callable, [valueOf] gives back the object, and the
    conversion raises a TypeError. *)
Fixpoint ToStringJson (j : json) : completion jsstring :=
  match j with
  | JNull => Normal (lit "null")
  | JBool true => Normal (lit "true")
  | JBool false => Normal (lit "false")
  | JNum repr => Normal repr
  | JStr s => Normal s
  | JArr elems =>
      parts <- (fix each (l : list json) : completion (list jsstring) :=
                  match l with
                  | [] => Normal []
                  | e :: rest =>
                      p <- match e with
                           | JNull => Normal []
                           | _ => ToStringJson e
                           end ;;
                      ps <- each rest ;;
                      Normal (p :: ps)
                  end) elems ;;
      Normal (join (lit ",") parts)
  | JObj props =>
      if hasOwn (lit "toString") props
      then Throw TypeError
      else Normal (lit "[object Object]")
  end.

Definition ToString (v : value) : completion jsstring :=
  match v with
  | Undefined => Normal (lit "undefined")
  | Val j => ToStringJson j
  end.

(** [arr.filter(pred)] where [pred] may throw: the callback runs on the
    elements in index order and the first exception ends the call. *)
Fixpoint filterM (pred : json -> completion bool) (elems : list json)
  : completion (list json) :=
  match elems with
  | [] => Normal []
  | e :: rest =>
      b <- pred e ;;
      kept <- filterM pred rest ;;
      Normal (if b then e :: kept else kept)
  end.

(** [arr.map(f)] where [f] may throw. *)
Fixpoint mapM {B} (f : json -> completion B) (elems : list json)
  : completion (list B) :=
  match elems with
  | [] => Normal []
  | e :: rest =>
      y <- f e ;;
      ys <- mapM f rest ;;
      Normal (y :: ys)
  end.

(** [v.filter(pred)]: the array method on an array; a TypeError on every
    other value ([undefined] and [null] have no properties, and on a
    boolean, number, string or object [filter] is not a function: JSON
    holds no functions). *)
Definition callFilter (v : value) (pred : json -> completion bool)
  : completion (list json) :=
  match v with
  | Val (JArr elems) => filterM pred elems
  | _ => Throw TypeError
  end.

End Json.
Import Json.

(* ================================================================== *)
(** ** The QrScanner component: camera session and sampling timer *)

Module QrScanner.

Definition trackId : Type := nat.

(** A handle returned by [setInterval]: an integer greater than zero, so a
    handle is always truthy. *)
Definition timerId : Type := positive.

(** The [MediaStream] granted by [getUserMedia]. *)
Record MediaStream : Type := { getTracks : list trackId }.

(** [track.getCapabilities().zoom] *)
Record ZoomCapability : Type := {
  zoom_min : Q;
  zoom_max : Q;
  zoom_step : option Q
}.

Record ZoomRange : Type := { min : Q; max : Q; step : Q }.

(** The component instance together with the part of the browser it acts
    on. [liveTracks] are the device tracks that have not been stopped,
    [activeTimers] the intervals scheduled in the window, [nextTimer] the
    handle the next [setInterval] returns. [mounted] says that
    [videoRef.current] and [canvasRef.current] are set. *)
Record session : Type := {
  streamRef : option MediaStream;
  scanIntervalRef : option timerId;
  mounted : bool;
  hasCamera : bool;
  zoomLevel : Q;
  zoomRange : ZoomRange;
  liveTracks : list trackId;
  activeTimers : list timerId;
  nextTimer : timerId
}.

(** The instance as [useRef(null)] and [useState] create it, mounted, in a
    window with no track and no interval. *)
Definition initial : session :=
  {| streamRef := None; scanIntervalRef := None; mounted := true;
     hasCamera := true; zoomLevel := 1;
     zoomRange := {| min := 1; max := 1; step := 1 |};
     liveTracks := []; activeTimers := []; nextTimer := 1%positive |}.

Definition set_streamRef (r : option MediaStream) (s : session) : session :=
  {| streamRef := r; scanIntervalRef := scanIntervalRef s; mounted := mounted s;
     hasCamera := hasCamera s; zoomLevel := zoomLevel s; zoomRange := zoomRange s;
     liveTracks := liveTracks s; activeTimers := activeTimers s;
     nextTimer := nextTimer s |}.

Definition set_scanIntervalRef (r : option timerId) (s : session) : session :=
  {| streamRef := streamRef s; scanIntervalRef := r; mounted := mounted s;
     hasCamera := hasCamera s; zoomLevel := zoomLevel s; zoomRange := zoomRange s;
     liveTracks := liveTracks s; activeTimers := activeTimers s;
     nextTimer := nextTimer s |}.

Definition setHasCamera (b : bool) (s : session) : session :=
  {| streamRef := streamRef s; scanIntervalRef := scanIntervalRef s;
     mounted := mounted s; hasCamera := b; zoomLevel := zoomLevel s;
     zoomRange := zoomRange s; liveTracks := liveTracks s;
     activeTimers := activeTimers s; nextTimer := nextTimer s |}.

Definition setZoom (level : Q) (range : ZoomRange) (s : session) : session :=
  {| streamRef := streamRef s; scanIntervalRef := scanIntervalRef s;
     mounted := mounted s; hasCamera := hasCamera s; zoomLevel := level;
     zoomRange := range; liveTracks := liveTracks s;
     activeTimers := activeTimers s; nextTimer := nextTimer s |}.

Definition set_liveTracks (l : list trackId) (s : session) : session :=
  {| streamRef := streamRef s; scanIntervalRef := scanIntervalRef s;
     mounted := mounted s; hasCamera := hasCamera s; zoomLevel := zoomLevel s;
     zoomRange := zoomRange s; liveTracks := l;
     activeTimers := activeTimers s; nextTimer := nextTimer s |}.

Definition set_timers (l : list timerId) (next : timerId) (s : session) : session :=
  {| streamRef := streamRef s; scanIntervalRef := scanIntervalRef s;
     mounted := mounted s; hasCamera := hasCamera s; zoomLevel := zoomLevel s;
     zoomRange := zoomRange s; liveTracks := liveTracks s;
     activeTimers := l; nextTimer := next |}.

(** [track.stop()] *)
Definition stopTrack (t : trackId) (live : list trackId) : list trackId :=
  filter (fun t' => negb (Nat.eqb t' t)) live.

(** [stream.getTracks().forEach((track) => track.stop())] *)
Definition stopTracks (ts live : list trackId) : list trackId :=
  fold_left (fun acc t => stopTrack t acc) ts live.

(** [clearInterval(id)]: the interval leaves the schedule; a handle that
    names no scheduled interval changes nothing. *)
Definition clearInterval (id : timerId) (timers : list timerId) : list timerId :=
  filter (fun id' => negb (Pos.eqb id' id)) timers.

(** [stopCamera] (lines 58-66). *)
Definition stopCamera (s : session) : session :=
  let s1 :=
    match streamRef s with
    | Some stream =>
        set_streamRef None
          (set_liveTracks (stopTracks (getTracks stream) (liveTracks s)) s)
    | None => s
    end in
  match scanIntervalRef s1 with
  | Some id => set_timers (clearInterval id (activeTimers s1)) (nextTimer s1) s1
  | None => s1
  end.

(** [startScanning] (lines 68-94): nothing without the video and the canvas
    element; otherwise a new interval is scheduled and its handle stored. *)
Definition startScanning (s : session) : session :=
  if negb (mounted s) then s
  else
    let id := nextTimer s in
    set_scanIntervalRef (Some id)
      (set_timers (id :: activeTimers s) (Pos.succ id) s).

(** The [onloadedmetadata] callback [startCamera] installs (lines 33-49). *)
Definition onloadedmetadata (zoom : option ZoomCapability) (s : session) : session :=
  let s1 :=
    match zoom with
    | Some z =>
        let st := match zoom_step z with
                  | Some q => if Qeq_bool q 0 then 1 else q
                  | None => 1
                  end in
        setZoom (zoom_min z) {| min := zoom_min z; max := zoom_max z; step := st |} s
    | None => s
    end in
  startScanning s1.

(** [startCamera] (lines 17-56) once [getUserMedia] has settled: granted
    with a stream of live tracks, or rejected. The second component is the
    message passed to [onError], if any. The metadata callback runs later,
    as [onloadedmetadata]. *)
Definition startCamera (granted : option MediaStream) (s : session)
  : session * option jsstring :=
  match granted with
  | Some stream =>
      (set_streamRef (Some stream)
         (set_liveTracks (getTracks stream ++ liveTracks s) s), None)
  | None =>
      (setHasCamera false s, Some (lit "Camera access denied or not available"))
  end.

(** What one run of the interval callback (lines 78-93) sees. *)
Inductive frame : Type :=
| NotEnoughData                          (* readyState is not HAVE_ENOUGH_DATA *)
| Decoded (code : option jsstring)       (* jsQR result: null, or its [data] *)
| DecodeThrows.                          (* getImageData or jsQR throws *)

(** One tick: the argument [onScan] is called with, if it is called. *)
Definition tick (f : frame) : option jsstring :=
  match f with
  | Decoded (Some data) => if truthy data then Some data else None
  | _ => None
  end.

(** The two handles as the data model describes them. *)
Definition streamActive (s : session) : bool :=
  match streamRef s with Some _ => true | None => false end.

Definition timerHandleSet (s : session) : bool :=
  match scanIntervalRef s with Some _ => true | None => false end.

(** The interval named by the handle is still scheduled. *)
Definition timerScheduled (s : session) : bool :=
  match scanIntervalRef s with
  | Some id => existsb (Pos.eqb id) (activeTimers s)
  | None => false
  end.

Definition trackLive (t : trackId) (s : session) : bool :=
  existsb (Nat.eqb t) (liveTracks s).

(** The invariant of the data model: the timer handle is non-null iff the
    stream is active. *)
Definition handlesAgree (s : session) : Prop :=
  timerHandleSet s = true <-> streamActive s = true.

(** The tracks of the stream the session holds. *)
Definition streamTracks (s : session) : list trackId :=
  match streamRef s with
  | Some stream => getTracks stream
  | None => []
  end.

(** A camera with one video track. *)
Definition oneTrackCamera : MediaStream := {| getTracks := [0%nat] |}.

End QrScanner.

(* ================================================================== *)
(** ** The TodoApp component: state, submission, event handlers *)

Module TodoApp.

Record message : Type := { text : option jsstring; isSuccess : bool }.

(** The four [useState] cells (lines 191-194). *)
Record state : Type := {
  taskInput : jsstring;
  isLoading : bool;
  status : message;
  showQrScanner : bool
}.

Definition initial : state :=
  {| taskInput := []; isLoading := false;
     status := {| text := None; isSuccess := false |};
     showQrScanner := false |}.

(** A call of one of the four state setters. *)
Inductive action : Type :=
| setTaskInput (s : jsstring)
| setIsLoading (b : bool)
| setMessage (m : message)
| setShowQrScanner (b : bool).

Definition dispatch (st : state) (a : action) : state :=
  match a with
  | setTaskInput s =>
      {| taskInput := s; isLoading := isLoading st; status := status st;
         showQrScanner := showQrScanner st |}
  | setIsLoading b =>
      {| taskInput := taskInput st; isLoading := b; status := status st;
         showQrScanner := showQrScanner st |}
  | setMessage m =>
      {| taskInput := taskInput st; isLoading := isLoading st; status := m;
         showQrScanner := showQrScanner st |}
  | setShowQrScanner b =>
      {| taskInput := taskInput st; isLoading := isLoading st; status := status st;
         showQrScanner := b |}
  end.

(** The setter calls of a handler, applied in program order. *)
Definition dispatchAll (acts : list action) (st : state) : state :=
  fold_left dispatch acts st.

(** The request [fetch] is called with (lines 211-215); [attendanceId] is
    the one field of the JSON body. *)
Record request : Type := {
  url : jsstring;
  method : jsstring;
  contentType : jsstring;
  attendanceId : jsstring
}.

(** How the [fetch] promise and the [response.json()] promise settle: the
    fetch rejects, or a response arrives with its [ok] flag and a body that
    parses to JSON or does not. *)
Inductive fetchResult : Type :=
| Rejected
| Responded (ok : bool) (body : option json).

(** An [async] handler: it returns after its setter calls, or it awaits a
    fetch and continues when the fetch has settled. *)
Inductive async : Type :=
| Return (acts : list action)
| AwaitFetch (acts : list action) (req : request) (k : fetchResult -> list action).

Definition ATTENDANCE_NOT_VALID : jsstring := lit "ATTENDANCE_NOT_VALID".

Definition LF : jsstring := [10%N].

Definition pleaseEnter : message :=
  {| text := Some (lit "Please enter a task or scan QR"); isSuccess := false |}.

Definition cleared : message := {| text := None; isSuccess := false |}.

(** U+2705, then the text of line 229. *)
Definition completed : message :=
  {| text := Some (0x2705%N :: lit " Task completed successfully!");
     isSuccess := true |}.

(** U+274C, then the text of line 249. *)
Definition processFailed : message :=
  {| text := Some (0x274C%N :: lit " Failed to process task. Please try again.");
     isSuccess := false |}.

(** The template of line 242. *)
Definition someFailed (failedMessages : list jsstring) : message :=
  {| text := Some (0x274C%N :: lit " Some tasks failed:" ++ LF
                     ++ join LF failedMessages);
     isSuccess := false |}.

(** [user.data?.output?.data?.code] (lines 224 and 237). *)
Definition nestedCode (user : json) : completion value :=
  d <- getProp (Val user) (lit "data") ;;
  Normal (optProp (optProp (optProp d (lit "output")) (lit "data")) (lit "code")).

(** The filter callback of lines 223-225. *)
Definition isFailed (user : json) : completion bool :=
  c <- nestedCode user ;;
  Normal (strictEqStr c ATTENDANCE_NOT_VALID).

Section WithHost.
Context `{Host}.

(** Lines 4-5. *)
Definition API_BASE_URL : jsstring :=
  match VITE_API_BASE_URL with
  | Some u => if truthy u then u else lit "http://localhost:3000"
  | None => lit "http://localhost:3000"
  end.

(** [email.slice(0, 11).toUpperCase()]: defined on a string; a TypeError on
    every other value ([undefined] and [null] have no properties; a number,
    boolean or object has no [slice] method; the slice of an array has no
    [toUpperCase] method). *)
Definition sliceUpper (email : value) : completion jsstring :=
  match email with
  | Val (JStr s) => Normal (toUpperCase (slice0 11 s))
  | _ => Throw TypeError
  end.

(** The map callback of lines 235-239. *)
Definition failedMessage (user : json) : completion jsstring :=
  email <- getProp (Val user) (lit "email") ;;
  reasonCode <- nestedCode user ;;
  head <- sliceUpper email ;;
  code <- ToString reasonCode ;;
  Normal (head ++ lit ": " ++ code).

(** The [try] block after the fetch has settled (lines 211-245): the
    setter calls it makes, or the exception it throws. *)
Definition tryBlock (r : fetchResult) : completion (list action) :=
  match r with
  | Rejected => Throw FetchRejected
  | Responded ok body =>
      if negb ok
      then Throw (Error (lit "Failed to communicate with the server."))
      else
        result <- match body with
                  | Some j => Normal (Val j)
                  | None => Throw SyntaxError
                  end ;;
        summary <- getProp result (lit "summary") ;;
        failedUsers <- callFilter summary isFailed ;;
        if (List.length failedUsers =? 0)%nat
        then Normal [setMessage completed; setTaskInput []; setShowQrScanner false]
        else
          failedMessages <- mapM failedMessage failedUsers ;;
          Normal [setMessage (someFailed failedMessages)]
  end.

(** [try { ... } catch (err) { ... } finally { setIsLoading(false) }]
    (lines 210-254). *)
Definition settle (r : fetchResult) : list action :=
  tryCatch (tryBlock r) (fun _ => [setMessage processFailed])
    ++ [setIsLoading false].

(** [handleAddTask] (lines 196-255), run by a handler of the render that
    saw the state [seen]. [attendanceId] is [None] when the argument is
    left out (the parameter defaults to [null]). *)
Definition handleAddTask (seen : state) (attendanceId : option jsstring) : async :=
  let inputValue :=
    match attendanceId with
    | Some id => if truthy id then id else trim (taskInput seen)
    | None => trim (taskInput seen)
    end in
  if negb (truthy inputValue)
  then Return [setMessage pleaseEnter]
  else
    AwaitFetch [setIsLoading true; setMessage cleared]
      {| url := API_BASE_URL ++ lit "/api/mark-all-present";
         method := lit "POST";
         contentType := lit "application/json";
         attendanceId := inputValue |}
      settle.

Definition andThen (acts : list action) (a : async) : async :=
  match a with
  | Return acts' => Return (acts ++ acts')
  | AwaitFetch acts' req k => AwaitFetch (acts ++ acts') req k
  end.

(** [handleQrScan] (lines 257-262). *)
Definition handleQrScan (seen : state) (scannedData : jsstring) : async :=
  andThen [setTaskInput scannedData; setShowQrScanner false]
          (handleAddTask seen (Some scannedData)).

(** [handleQrError] (lines 264-267). *)
Definition handleQrError (error : jsstring) : list action :=
  [setMessage {| text := Some error; isSuccess := false |}].

(** *** The rendered affordances (lines 353-403) *)

(** [disabled] of the text input (line 365). *)
Definition inputDisabled (st : state) : bool := isLoading st.

(** [disabled] of the Add button (line 390). *)
Definition addDisabled (st : state) : bool :=
  isLoading st || negb (truthy (trim (taskInput st))).

(** [disabled] of the QR button (line 374). *)
Definition qrDisabled (st : state) : bool := isLoading st.

(** The page and the fetches that have not settled yet, oldest first. *)
Record system : Type := {
  ui : state;
  inflight : list (request * (fetchResult -> list action))
}.

Definition boot : system := {| ui := initial; inflight := [] |}.

(** Running a handler: its setter calls reach the state, an awaited fetch
    joins the fetches in flight. *)
Definition run (a : async) (sys : system) : system :=
  match a with
  | Return acts =>
      {| ui := dispatchAll acts (ui sys); inflight := inflight sys |}
  | AwaitFetch acts req k =>
      {| ui := dispatchAll acts (ui sys); inflight := inflight sys ++ [(req, k)] |}
  end.

Fixpoint removeNth {A} (n : nat) (l : list A) : list A :=
  match n, l with
  | _, [] => []
  | O, _ :: t => t
  | S n', x :: t => x :: removeNth n' t
  end.

(** What can happen to the page on its own. A disabled control delivers
    no event, a control that is not rendered delivers none, and [Scan] is a
    tick of the scanner that is on the page. The interval callback holds the
    [onScan] of the render that started the scan; [tick] passes it a
    non-empty string only, and then [handleAddTask] does not read the state
    that render saw. The scanner instance behind the page (its camera, its
    intervals, [onError]) is joined to it in [App]. *)
Inductive event : Type :=
| Change (value : jsstring)        (* typing into the text input *)
| KeyPressEnter                    (* Enter in the text input *)
| ClickAdd                         (* the Add button *)
| ClickQr                          (* the QR / Close button *)
| ClickCloseScanner                (* the X of the scanner panel *)
| Scan (f : QrScanner.frame)       (* one run of the scanner's interval callback *)
| Settled (i : nat) (r : fetchResult). (* the i-th fetch in flight settles *)

Definition step (sys : system) (e : event) : system :=
  let st := ui sys in
  match e with
  | Change value =>
      if inputDisabled st then sys
      else run (Return [setTaskInput value]) sys
  | KeyPressEnter =>
      if inputDisabled st then sys
      else if truthy (trim (taskInput st)) && negb (isLoading st)
           then run (handleAddTask st None) sys
           else sys
  | ClickAdd =>
      if addDisabled st then sys
      else run (handleAddTask st None) sys
  | ClickQr =>
      if qrDisabled st then sys
      else run (Return [setShowQrScanner (negb (showQrScanner st))]) sys
  | ClickCloseScanner =>
      if showQrScanner st
      then run (Return [setShowQrScanner false]) sys
      else sys
  | Scan f =>
      if showQrScanner st
      then match QrScanner.tick f with
           | Some data => run (handleQrScan st data) sys
           | None => sys
           end
      else sys
  | Settled i r =>
      match nth_error (inflight sys) i with
      | Some (_, k) =>
          {| ui := dispatchAll (k r) st; inflight := removeNth i (inflight sys) |}
      | None => sys
      end
  end.

Definition steps (es : list event) (sys : system) : system :=
  fold_left step es sys.

(** The attendance ids of the requests in flight. *)
Definition inflightIds (sys : system) : list jsstring :=
  map (fun p => attendanceId (fst p)) (inflight sys).

End WithHost.

End TodoApp.

(* ================================================================== *)
(** ** Reading a response

    The response as the specification words it: an entry's nested code, its
    email, the summary list of a body, the line of a failing entry. These
    follow the specification and are compared with what [TodoApp] computes. *)

Module Reading.

(** An own property of an object; nothing on any other value. *)
Definition field (k : jsstring) (j : json) : option json :=
  match j with
  | JObj props =>
      match lookup k props with
      | Val x => Some x
      | Undefined => None
      end
  | _ => None
  end.

Definition andThenField (o : option json) (k : jsstring) : option json :=
  match o with
  | Some j => field k j
  | None => None
  end.

(** The nested code of an entry, present when every link of
    [data.output.data.code] is. *)
Definition codeAt (user : json) : option json :=
  andThenField
    (andThenField (andThenField (field (lit "data") user) (lit "output"))
                  (lit "data"))
    (lit "code").

(** The entry is a failure: its nested code is present and equals
    [ATTENDANCE_NOT_VALID]. *)
Definition codeNotValid (user : json) : bool :=
  match codeAt user with
  | Some (JStr c) => JsString.eqb c TodoApp.ATTENDANCE_NOT_VALID
  | _ => false
  end.

(** The summary list of a parsed body, when the body is an object whose
    [summary] is an array. *)
Definition summaryList (result : json) : option (list json) :=
  match field (lit "summary") result with
  | Some (JArr entries) => Some entries
  | _ => None
  end.

(** The email of an entry, when it is a string. *)
Definition emailOf (user : json) : option jsstring :=
  match field (lit "email") user with
  | Some (JStr s) => Some s
  | _ => None
  end.

(** The line the specification gives a failing entry: the first 11
    characters of the email, upper-cased, then [": "], then the code. *)
Definition failureLine `{Host} (email : jsstring) : jsstring :=
  toUpperCase (slice0 11 email) ++ lit ": " ++ TodoApp.ATTENDANCE_NOT_VALID.

Definition isNull (j : json) : bool :=
  match j with JNull => true | _ => false end.

Definition ofOption (o : option json) : value :=
  match o with Some j => Val j | None => Undefined end.

(** An entry with the given email and nested code. *)
Definition entry (email code : string) : json :=
  JObj [(lit "email", JStr (lit email));
        (lit "data",
         JObj [(lit "output",
                JObj [(lit "data", JObj [(lit "code", JStr (lit code))])])])].

(** A body [{ summary: [...] }]. *)
Definition body (entries : list json) : json :=
  JObj [(lit "summary", JArr entries)].

End Reading.

(** ** Concrete pages and responses *)

Module Examples.
Import TodoApp Reading.

(** The page while the user's [abc] is being submitted. *)
Definition submitting : state :=
  {| taskInput := lit "abc"; isLoading := true; status := cleared;
     showQrScanner := false |}.

(** The page with three spaces typed. *)
Definition blank : state :=
  {| taskInput := lit "   "; isLoading := false; status := cleared;
     showQrScanner := false |}.

Definition alice : json := entry "alice@example.com" "ATTENDANCE_NOT_VALID".

Definition bob : json := entry "bob@example.com" "ATTENDANCE_MARKED".

(** An entry with an email and nothing else. *)
Definition carol : json := JObj [(lit "email", JStr (lit "carol@example.com"))].

(** An entry with the failure code and no email. *)
Definition nameless : json :=
  JObj [(lit "data",
         JObj [(lit "output",
                JObj [(lit "data",
                       JObj [(lit "code", JStr (lit "ATTENDANCE_NOT_VALID"))])])])].

(** The page with [abc] typed between spaces, nothing in flight. *)
Definition padded : state :=
  {| taskInput := lit "  abc "; isLoading := false; status := cleared;
     showQrScanner := false |}.

(** The page with the scanner open. *)
Definition scanning : state :=
  {| taskInput := []; isLoading := false; status := cleared;
     showQrScanner := true |}.

End Examples.

(* ================================================================== *)
(** ** The scanner's life: effect, zoom slider, operations in sequence *)

Module Lifecycle.
Import QrScanner.

(** React detaches [videoRef] and [canvasRef] when the video and the canvas
    leave the page (the component unmounts, or renders the fallback of
    lines 120-145). *)
Definition detachRefs (s : session) : session :=
  {| streamRef := streamRef s; scanIntervalRef := scanIntervalRef s;
     mounted := false; hasCamera := hasCamera s; zoomLevel := zoomLevel s;
     zoomRange := zoomRange s; liveTracks := liveTracks s;
     activeTimers := activeTimers s; nextTimer := nextTimer s |}.

(** [handleZoomChange] (lines 96-108): the displayed level is set to the
    slider's value; the constraint is then requested on the track when a
    stream is held, and whether the device honours it is not read (a
    rejection is caught and logged). *)
Definition handleZoomChange (newZoom : Q) (s : session) : session :=
  setZoom newZoom (zoomRange s) s.

(** The condition of line 171: the zoom slider is rendered. *)
Definition zoomSliderShown (s : session) : bool :=
  negb (Qle_bool (max (zoomRange s)) (min (zoomRange s))).

(** The body of the effect (lines 110-116), up to the [await] inside
    [startCamera]: [true] says that [getUserMedia] was requested. *)
Definition effect (isActive : bool) (s : session) : session * bool :=
  if isActive && hasCamera s then (s, true) else (stopCamera s, false).

(** The cleanup of the effect (line 117). *)
Definition cleanup (s : session) : session := stopCamera s.

(** What happens to a scanner instance, one at a time. *)
Inductive op : Type :=
| Granted (stream : MediaStream)            (* getUserMedia resolves *)
| Denied                                    (* getUserMedia rejects *)
| LoadedMetadata (zoom : option ZoomCapability)
| ZoomChange (newZoom : Q)
| Detach
| Stop.                                     (* stopCamera, from the effect or its cleanup *)

Definition apply (s : session) (o : op) : session :=
  match o with
  | Granted stream => fst (startCamera (Some stream) s)
  | Denied => fst (startCamera None s)
  | LoadedMetadata zoom => onloadedmetadata zoom s
  | ZoomChange newZoom => handleZoomChange newZoom s
  | Detach => detachRefs s
  | Stop => stopCamera s
  end.

Definition applyAll (ops : list op) (s : session) : session :=
  fold_left apply ops s.

(** Every scheduled interval was handed out before the next handle. *)
Definition timersFresh (s : session) : bool :=
  forallb (fun id => Pos.ltb id (nextTimer s)) (activeTimers s).

(** No track of the stream is live yet. *)
Definition tracksNew (stream : MediaStream) (s : session) : bool :=
  forallb (fun t => negb (trackLive t s)) (getTracks stream).

Definition scheduled (id : timerId) (s : session) : bool :=
  existsb (Pos.eqb id) (activeTimers s).

(** [id] is the handle held in [scanIntervalRef]. *)
Definition isHandle (id : timerId) (s : session) : bool :=
  match scanIntervalRef s with
  | Some h => Pos.eqb id h
  | None => false
  end.

(** [t] is a track of the stream held in [streamRef]. *)
Definition inStream (t : trackId) (s : session) : bool :=
  existsb (Nat.eqb t) (streamTracks s).

(** The handle held, if any, was handed out before the next one. *)
Definition handleFresh (s : session) : bool :=
  match scanIntervalRef s with
  | Some h => Pos.ltb h (nextTimer s)
  | None => true
  end.

(** What every operation keeps. *)
Definition wellKept (s : session) : Prop :=
  timersFresh s = true
  /\ handleFresh s = true
  /\ Qeq_bool (step (zoomRange s)) 0 = false.

End Lifecycle.

(* ================================================================== *)
(** ** Pages reached by events *)

Module Page.
Import TodoApp.

(** The event is no scan that decodes a QR code. *)
Definition quiet (e : event) : bool :=
  match e with
  | Scan f => match QrScanner.tick f with Some _ => false | None => true end
  | _ => true
  end.

Definition nothingInFlight (sys : system) : bool :=
  match inflight sys with [] => true | _ :: _ => false end.

(** The code unit at the start and at the end of a string. *)
Definition first (s : jsstring) : option N := hd_error s.

Definition last (s : jsstring) : option N := hd_error (rev s).

Definition notWhiteSpace (c : option N) : bool :=
  match c with Some x => negb (isWhiteSpace x) | None => false end.


Section WithHost.
Context `{Host}.

(** Every fetch in flight was started by [handleAddTask]: it carries a
    non-empty attendance id and continues with [settle]. *)
Definition startedByHandler (sys : system) : Prop :=
  Forall (fun p => snd p = settle /\ truthy (attendanceId (fst p)) = true)
         (inflight sys).

(** At most one fetch is in flight, and [isLoading] says whether one is. *)
Definition exclusive (sys : system) : Prop :=
  (inflight sys = [] /\ isLoading (ui sys) = false)
  \/ (exists req, inflight sys = [(req, settle)] /\ isLoading (ui sys) = true).

(** The statuses the submission code sets. *)
Definition submissionStatus (m : message) : Prop :=
  m = cleared \/ m = completed \/ m = processFailed
  \/ exists lines, m = someFailed lines.

(** The status [handleQrError] sets when the camera is refused (lines 54
    and 266). *)
Definition cameraError : message :=
  {| text := Some (lit "Camera access denied or not available");
     isSuccess := false |}.

(** The statuses the page can show. *)
Definition shownStatus (m : message) : Prop :=
  submissionStatus m \/ m = cameraError.

(** The invariant of every page: the fetches in flight come from
    [handleAddTask], and [isLoading] is false when none is in flight. *)
Definition sound (sys : system) : Prop :=
  startedByHandler sys
  /\ isLoading (ui sys) && nothingInFlight sys = false.

End WithHost.

End Page.

(* ================================================================== *)
(** ** The page together with its scanner

    [TodoApp.step] is the page on its own. Here the page is joined with the
    scanner instance it renders (line 324: the scanner is on the page
    exactly while [showQrScanner]) and with the window's tracks and
    intervals: opening the scanner mounts a new instance and runs its
    effect, closing it detaches the refs and runs the cleanup, a refused
    camera reaches the page through [onError], and a scan reaches the page
    only as the callback of an interval that is still scheduled.

    The camera and the video element act when they will: a grant, a
    refusal and a loaded-metadata event are not tied to a pending request.
    The sequences of events of this model include the sequences a browser
    produces. *)

Module App.
Import QrScanner Lifecycle.

(** A new [QrScanner] instance in the window of [c]: its refs and state
    cells as lines 9-15 create them, the video and the canvas rendered. *)
Definition mountScanner (c : session) : session :=
  {| streamRef := None; scanIntervalRef := None; mounted := true;
     hasCamera := true; zoomLevel := 1;
     zoomRange := {| min := 1; max := 1; step := 1 |};
     liveTracks := liveTracks c; activeTimers := activeTimers c;
     nextTimer := nextTimer c |}.

(** The instance leaves the page: React detaches its refs and runs the
    cleanup of its effect (line 117). *)
Definition unmountScanner (c : session) : session :=
  cleanup (detachRefs c).

(** After a render of the page: the scanner is mounted when
    [showQrScanner] has become true (its effect runs with [isActive], and
    requests the camera), unmounted when it has become false. *)
Definition reconcile (shownBefore shownAfter : bool) (c : session) : session :=
  match shownBefore, shownAfter with
  | false, true => fst (effect true (mountScanner c))
  | true, false => unmountScanner c
  | _, _ => c
  end.

(** [getUserMedia] rejects: the catch block of [startCamera] (lines
    51-55). On an instance that is on the page, [hasCamera] turns false,
    the fallback of lines 120-145 replaces the video and the canvas, and the
    effect runs again (cleanup, then body). On an instance that has left
    the page only [onError] is called. The second component is the message
    [onError] gets. *)
Definition cameraDenied (c : session) : session * option jsstring :=
  if mounted c
  then (fst (effect true (cleanup (detachRefs (fst (startCamera None c))))),
        snd (startCamera None c))
  else (c, snd (startCamera None c)).

(** The video element fires [loadedmetadata]: the handler of lines 33-49
    is installed once a stream was granted to an instance on the page. *)
Definition metadataLoaded (zoom : option ZoomCapability) (c : session) : session :=
  if mounted c && streamActive c then onloadedmetadata zoom c else c.

Section WithHost.
Context `{Host}.

Record app : Type := {
  page : TodoApp.system;
  cam : session
}.

(** The page as it loads: no scanner instance, an empty window. *)
Definition boot : app :=
  {| page := TodoApp.boot; cam := detachRefs QrScanner.initial |}.

Inductive event : Type :=
| OnPage (e : TodoApp.event)              (* typing, Enter, the buttons, a settlement *)
| CameraGranted (stream : MediaStream)
| CameraDenied
| MetadataLoaded (zoom : option ZoomCapability)
| Tick (id : timerId) (f : frame).        (* the callback of interval [id] *)

Definition rerender (before after : TodoApp.system) (c : session) : session :=
  reconcile (TodoApp.showQrScanner (TodoApp.ui before))
            (TodoApp.showQrScanner (TodoApp.ui after)) c.

Definition step (a : app) (e : event) : app :=
  match e with
  | OnPage (TodoApp.Scan _) => a
  | OnPage e' =>
      {| page := TodoApp.step (page a) e';
         cam := rerender (page a) (TodoApp.step (page a) e') (cam a) |}
  | CameraGranted stream =>
      {| page := page a; cam := fst (startCamera (Some stream) (cam a)) |}
  | CameraDenied =>
      {| page :=
           match snd (cameraDenied (cam a)) with
           | Some error =>
               TodoApp.run (TodoApp.Return (TodoApp.handleQrError error)) (page a)
           | None => page a
           end;
         cam := fst (cameraDenied (cam a)) |}
  | MetadataLoaded zoom =>
      {| page := page a; cam := metadataLoaded zoom (cam a) |}
  | Tick id f =>
      if scheduled id (cam a)
      then match tick f with
           | Some data =>
               {| page :=
                    TodoApp.run (TodoApp.handleQrScan (TodoApp.ui (page a)) data)
                                (page a);
                  cam :=
                    rerender (page a)
                      (TodoApp.run (TodoApp.handleQrScan (TodoApp.ui (page a)) data)
                                   (page a))
                      (cam a) |}
           | None => a
           end
      else a
  end.

Definition steps (es : list event) (a : app) : app := fold_left step es a.


Definition ticks (l : list (timerId * frame)) : list event :=
  map (fun p => Tick (fst p) (snd p)) l.

End WithHost.

End App.

(** ** Concrete runs of the whole *)

Module AppExamples.
Import QrScanner TodoApp.

(** The scanner opened, the camera granted, the metadata loaded: one
    interval is scheduled and the handle names it. *)
Definition opened : App.app :=
  @App.steps asciiHost
    [App.OnPage ClickQr; App.CameraGranted oneTrackCamera; App.MetadataLoaded None]
    App.boot.

(** Then [abc] typed and Enter pressed: a fetch is in flight and the
    scanner is still open. *)
Definition openedAndSubmitting : App.app :=
  @App.steps asciiHost
    [App.OnPage (Change (lit "abc")); App.OnPage KeyPressEnter] opened.

End AppExamples.

(* ================================================================== *)
(** * Properties *)

(** ** Strings *)

Lemma eqb_eq (a b : jsstring) : JsString.eqb a b = true <-> a = b.
Proof.
  revert b; induction a as [|x a IH]; intros [|y b]; simpl;
    try (split; [discriminate | congruence]); try tauto.
  rewrite andb_true_iff, N.eqb_eq, IH. split.
  - intros [-> ->]; reflexivity.
  - intros E; injection E; auto.
Qed.

Lemma eqb_refl (a : jsstring) : JsString.eqb a a = true.
Proof. apply eqb_eq; reflexivity. Qed.

Lemma trimStart_blank (s : jsstring) :
  forallb isWhiteSpace s = true -> trimStart s = [].
Proof.
  induction s as [|c s IH]; simpl; [reflexivity|].
  rewrite andb_true_iff; intros [Hc Hs]. rewrite Hc. auto.
Qed.

Lemma trim_blank (s : jsstring) :
  forallb isWhiteSpace s = true -> trim s = [].
Proof.
  intros Hs. unfold trim, trimEnd. rewrite (trimStart_blank s Hs). reflexivity.
Qed.

Lemma includes_join (sep x : jsstring) (parts : list jsstring) :
  In x parts -> includes (join sep parts) x.
Proof.
  induction parts as [|p rest IH]; [intros []|].
  intros [-> | Hin].
  - destruct rest as [|q rest'].
    + exists [], []. simpl. now rewrite app_nil_r.
    + exists [], (sep ++ join sep (q :: rest')). reflexivity.
  - destruct rest as [|q rest']; [destruct Hin|].
    destruct (IH Hin) as (pre & post & E).
    exists (p ++ sep ++ pre), post.
    change (join sep (p :: q :: rest')) with (p ++ sep ++ join sep (q :: rest')).
    rewrite E. now rewrite <- !app_assoc.
Qed.

Lemma includes_after (pre hay x : jsstring) :
  includes hay x -> includes (pre ++ hay) x.
Proof.
  intros (a & b & ->). exists (pre ++ a), b. now rewrite <- app_assoc.
Qed.

(** ** The camera session *)

Section CameraSession.
Import QrScanner.






Lemma clearInterval_gone (id : timerId) (timers : list timerId) :
  existsb (Pos.eqb id) (clearInterval id timers) = false.
Proof.
  destruct (existsb (Pos.eqb id) (clearInterval id timers)) eqn:E; [|reflexivity].
  apply existsb_exists in E. destruct E as (u & Hu & Eu).
  apply Pos.eqb_eq in Eu. subst u.
  unfold clearInterval in Hu. apply filter_In in Hu.
  destruct Hu as [_ Hu]. now rewrite Pos.eqb_refl in Hu.
Qed.

Lemma clearInterval_idem (id : timerId) (timers : list timerId) :
  clearInterval id (clearInterval id timers) = clearInterval id timers.
Proof.
  unfold clearInterval. induction timers as [|u timers IH]; simpl; [reflexivity|].
  destruct (Pos.eqb u id) eqn:E; simpl; [exact IH|].
  rewrite E. simpl. now rewrite IH.
Qed.

Lemma clearInterval_absent (id : timerId) (timers : list timerId) :
  existsb (Pos.eqb id) timers = false -> clearInterval id timers = timers.
Proof.
  unfold clearInterval. induction timers as [|u timers IH]; simpl; [reflexivity|].
  rewrite orb_false_iff. intros [E Hrest].
  rewrite Pos.eqb_sym, E. simpl. now rewrite IH.
Qed.

Lemma stopCamera_streamRef (s : session) : streamRef (stopCamera s) = None.
Proof.
  destruct s as [sr si m hc zl zr lt at' nt].
  unfold stopCamera; destruct sr, si; reflexivity.
Qed.

Lemma stopCamera_scanIntervalRef (s : session) :
  scanIntervalRef (stopCamera s) = scanIntervalRef s.
Proof.
  destruct s as [sr si m hc zl zr lt at' nt].
  unfold stopCamera; destruct sr, si; reflexivity.
Qed.

Lemma stopCamera_unscheduled (s : session) :
  timerScheduled (stopCamera s) = false.
Proof.
  destruct s as [sr si m hc zl zr lt at' nt].
  unfold timerScheduled, stopCamera; destruct sr, si; simpl;
    try reflexivity; apply clearInterval_gone.
Qed.


Lemma stopCamera_idem (s : session) :
  stopCamera (stopCamera s) = stopCamera s.
Proof.
  destruct s as [sr si m hc zl zr lt at' nt].
  unfold stopCamera; destruct sr as [stream|]; destruct si as [id|]; simpl;
    unfold set_timers; simpl; try rewrite clearInterval_idem; reflexivity.
Qed.


(** What [stopCamera] does to the window: the tracks of the held stream
    are stopped, the interval named by the handle is cleared. *)
Lemma stopCamera_window (s : session) :
  liveTracks (stopCamera s) = stopTracks (streamTracks s) (liveTracks s)
  /\ activeTimers (stopCamera s)
     = match scanIntervalRef s with
       | Some id => clearInterval id (activeTimers s)
       | None => activeTimers s
       end.
Proof.
  destruct s as [sr si m hc zl zr lt at' nt].
  unfold stopCamera, streamTracks; destruct sr, si; split; reflexivity.
Qed.

(** The interval the handle named before the stop is not scheduled after
    it. *)
Lemma stopCamera_cancels (s : session) (id : timerId) :
  scanIntervalRef s = Some id ->
  existsb (Pos.eqb id) (activeTimers (stopCamera s)) = false.
Proof.
  intros Hi. rewrite (proj2 (stopCamera_window s)), Hi.
  apply clearInterval_gone.
Qed.




Lemma startCamera_handles (s : session) (stream : MediaStream) :
  streamActive (fst (startCamera (Some stream) s)) = true
  /\ scanIntervalRef (fst (startCamera (Some stream) s)) = scanIntervalRef s.
Proof. destruct s; split; reflexivity. Qed.

Lemma startScanning_handles (s : session) :
  mounted s = true ->
  timerHandleSet (startScanning s) = true
  /\ timerScheduled (startScanning s) = true
  /\ streamRef (startScanning s) = streamRef s.
Proof.
  destruct s as [sr si m hc zl zr lt at' nt]. simpl. intros ->.
  unfold startScanning, timerHandleSet, timerScheduled. simpl.
  now rewrite Pos.eqb_refl.
Qed.

(** The interval [startScanning] schedules is the one its handle names. *)
Lemma startScanning_interval (s : session) :
  mounted s = true ->
  scanIntervalRef (startScanning s) = Some (nextTimer s)
  /\ existsb (Pos.eqb (nextTimer s)) (activeTimers (startScanning s)) = true.
Proof.
  destruct s as [sr si m hc zl zr lt at' nt]. simpl. intros ->.
  unfold startScanning. simpl. now rewrite Pos.eqb_refl.
Qed.

(** C2, as the code has it. After [stopCamera], once or twice and from any
    state, the stream handle is null and the interval that the timer handle
    named is no longer scheduled. After [startCamera] is granted a stream,
    from any state, the stream handle is set and the timer handle is as it
    was (null on a fresh session): the timer is created by [startScanning],
    which runs when the metadata has loaded. After [startCamera] and then
    [startScanning] on a mounted scanner the stream handle and the timer
    handle are both set and the interval the handle names is scheduled, so
    the two handles agree there, as they do on a fresh session. *)
Theorem C2_handles_after_each_operation (s : session) (stream : MediaStream) :
  (streamActive (stopCamera s) = false
   /\ streamActive (stopCamera (stopCamera s)) = false
   /\ forall id,
        scanIntervalRef s = Some id ->
        existsb (Pos.eqb id) (activeTimers (stopCamera s)) = false
        /\ existsb (Pos.eqb id) (activeTimers (stopCamera (stopCamera s))) = false)
  /\ (streamActive (fst (startCamera (Some stream) s)) = true
      /\ scanIntervalRef (fst (startCamera (Some stream) s)) = scanIntervalRef s)
  /\ (mounted s = true ->
      streamActive (startScanning (fst (startCamera (Some stream) s))) = true
      /\ timerHandleSet (startScanning (fst (startCamera (Some stream) s))) = true
      /\ scanIntervalRef (startScanning (fst (startCamera (Some stream) s)))
         = Some (nextTimer s)
      /\ existsb (Pos.eqb (nextTimer s))
           (activeTimers (startScanning (fst (startCamera (Some stream) s)))) = true
      /\ handlesAgree (startScanning (fst (startCamera (Some stream) s))))
  /\ handlesAgree initial.
Proof.
  assert (Hstop : forall x, streamActive (stopCamera x) = false).
  { intros x. unfold streamActive. now rewrite stopCamera_streamRef. }
  split; [|split; [|split]].
  - split; [apply Hstop|]. split; [apply Hstop|].
    intros id Hi. rewrite stopCamera_idem.
    split; now apply stopCamera_cancels.
  - apply startCamera_handles.
  - intros Hm.
    assert (Hm' : mounted (fst (startCamera (Some stream) s)) = true).
    { destruct s; exact Hm. }
    assert (Hn : nextTimer (fst (startCamera (Some stream) s)) = nextTimer s).
    { destruct s; reflexivity. }
    destruct (startScanning_handles _ Hm') as (Hh & Hs & Hr).
    destruct (startScanning_interval _ Hm') as (Hi & He).
    rewrite Hn in Hi, He.
    destruct (startCamera_handles s stream) as (Ha & _).
    assert (Hact : streamActive (startScanning (fst (startCamera (Some stream) s)))
                   = true).
    { unfold streamActive in *. now rewrite Hr. }
    repeat split; auto.
  - split; discriminate.
Qed.

Lemma C2_handles_after_each_operation_witness :
  mounted initial = true
  /\ handlesAgree (startScanning (fst (startCamera (Some oneTrackCamera) initial)))
  /\ existsb (Pos.eqb 1%positive)
       (activeTimers
          (stopCamera (startScanning (fst (startCamera (Some oneTrackCamera) initial)))))
     = false.
Proof.
  split; [reflexivity|].
  destruct (C2_handles_after_each_operation initial oneTrackCamera)
    as (_ & _ & H & _).
  destruct (H eq_refl) as (_ & _ & _ & _ & Ha).
  split; [exact Ha|].
  destruct (C2_handles_after_each_operation
              (startScanning (fst (startCamera (Some oneTrackCamera) initial)))
              oneTrackCamera) as ((_ & _ & Hc) & _).
  exact (proj1 (Hc 1%positive eq_refl)).
Defined.

(** C2, as stated, fails twice. Right after [startCamera] is granted a
    stream on a fresh session the stream is active and the timer handle is
    null. After [startCamera], [startScanning] and [stopCamera] the stream
    handle is null and the timer handle still holds the cleared interval's
    id: line 64 clears the interval and no line resets
    [scanIntervalRef.current]. *)
Lemma C2_counterexample :
  ~ handlesAgree (fst (startCamera (Some oneTrackCamera) initial))
  /\ ~ handlesAgree
        (stopCamera (startScanning (fst (startCamera (Some oneTrackCamera) initial))))
  /\ streamRef
       (stopCamera (startScanning (fst (startCamera (Some oneTrackCamera) initial))))
     = None
  /\ scanIntervalRef
       (stopCamera (startScanning (fst (startCamera (Some oneTrackCamera) initial))))
     = Some 1%positive.
Proof.
  unfold handlesAgree. repeat split.
  - intros [_ H]. specialize (H eq_refl). discriminate H.
  - intros [H _]. specialize (H eq_refl). discriminate H.
Qed.

End CameraSession.


Section Classification.
Import TodoApp Reading.

Lemma ownProp_field (j : json) (k : jsstring) :
  ownProp (Val j) k = ofOption (field k j).
Proof.
  destruct j; try reflexivity. simpl. now destruct (lookup k props).
Qed.

Lemma optProp_field (o : option json) (k : jsstring) :
  optProp (ofOption o) k = ofOption (andThenField o k).
Proof.
  destruct o as [j|]; [|reflexivity]. simpl.
  destruct j; try reflexivity.
  unfold optProp. simpl. now destruct (lookup k props).
Qed.

Lemma getProp_nonnull (j : json) (k : jsstring) :
  isNull j = false -> getProp (Val j) k = Normal (ofOption (field k j)).
Proof.
  intros Hj. unfold getProp.
  replace (nullish (Val j)) with false by (now destruct j).
  now rewrite ownProp_field.
Qed.

Lemma nestedCode_nonnull (user : json) :
  isNull user = false -> nestedCode user = Normal (ofOption (codeAt user)).
Proof.
  intros Hu. unfold nestedCode, codeAt.
  rewrite (getProp_nonnull _ _ Hu). unfold bind.
  now rewrite !optProp_field.
Qed.

Lemma strictEqStr_code (o : option json) :
  strictEqStr (ofOption o) ATTENDANCE_NOT_VALID
  = match o with
    | Some (JStr c) => JsString.eqb c ATTENDANCE_NOT_VALID
    | _ => false
    end.
Proof. destruct o as [[]|]; reflexivity. Qed.

Lemma isFailed_nonnull (user : json) :
  isNull user = false -> isFailed user = Normal (codeNotValid user).
Proof.
  intros Hu. unfold isFailed, codeNotValid.
  rewrite (nestedCode_nonnull _ Hu). unfold bind.
  now rewrite strictEqStr_code.
Qed.

Lemma isFailed_null : isFailed JNull = Throw TypeError.
Proof. reflexivity. Qed.

(** C9, as the code has it. For every summary entry other than [null]
    the classification returns without raising, and the entry is a failure
    exactly when every link of [data.output.data.code] is present and the
    code equals [ATTENDANCE_NOT_VALID]; so an entry in which a link is
    absent is a success. *)
Theorem C9_classification_of_non_null_entries (user : json) :
  isNull user = false ->
  isFailed user = Normal (codeNotValid user)
  /\ (codeAt user = None -> isFailed user = Normal false)
  /\ (isFailed user = Normal true
      <-> codeAt user = Some (JStr ATTENDANCE_NOT_VALID)).
Proof.
  intros Hu. rewrite (isFailed_nonnull _ Hu). split; [reflexivity|]. split.
  - intros Hc. unfold codeNotValid. now rewrite Hc.
  - unfold codeNotValid. split.
    + intros E. injection E as E.
      destruct (codeAt user) as [[]|]; try discriminate.
      apply eqb_eq in E. now subst.
    + intros ->. now rewrite eqb_refl.
Qed.

Lemma C9_classification_of_non_null_entries_witness :
  isNull (JObj [(lit "email", JStr (lit "bob@example.com"))]) = false
  /\ codeAt (JObj [(lit "email", JStr (lit "bob@example.com"))]) = None
  /\ isFailed (JObj [(lit "email", JStr (lit "bob@example.com"))]) = Normal false.
Proof.
  split; [reflexivity|]. split; [reflexivity|].
  destruct (C9_classification_of_non_null_entries
              (JObj [(lit "email", JStr (lit "bob@example.com"))]) eq_refl)
    as (_ & H & _).
  exact (H eq_refl).
Defined.

(** C9, as stated, fails on the entry [null]: no link of the path is
    present, and reading [user.data] raises a TypeError. *)
Lemma C9_counterexample :
  codeAt JNull = None /\ isFailed JNull = Throw TypeError.
Proof. split; reflexivity. Qed.

End Classification.

(** ** The submission outcome *)

Section Outcome.
Import TodoApp Reading.
Context `{Host}.

Lemma filterM_isFailed_nonnull (entries : list json) :
  existsb isNull entries = false ->
  filterM isFailed entries = Normal (filter codeNotValid entries).
Proof.
  induction entries as [|e rest IH]; simpl; [reflexivity|].
  rewrite orb_false_iff. intros [He Hrest].
  rewrite (isFailed_nonnull _ He), (IH Hrest). simpl.
  now destruct (codeNotValid e).
Qed.

(** When the filter returns, no entry was [null] and the kept entries are
    those with the code. *)
Lemma filterM_isFailed_Normal (entries kept : list json) :
  filterM isFailed entries = Normal kept ->
  existsb isNull entries = false /\ kept = filter codeNotValid entries.
Proof.
  revert kept. induction entries as [|e rest IH]; simpl; intros kept E.
  - injection E as <-. split; reflexivity.
  - destruct (isNull e) eqn:He.
    + destruct e; try discriminate He. discriminate E.
    + rewrite (isFailed_nonnull _ He) in E. simpl in E.
      destruct (filterM isFailed rest) as [kept'|] eqn:Er; [|discriminate E].
      destruct (IH _ eq_refl) as [Hn ->]. simpl in E. injection E as <-.
      split; [exact Hn|]. now destruct (codeNotValid e).
Qed.

Lemma summaryList_getProp (result : json) (entries : list json) :
  summaryList result = Some entries ->
  getProp (Val result) (lit "summary") = Normal (Val (JArr entries)).
Proof.
  unfold summaryList. intros E.
  assert (Hn : isNull result = false) by (destruct result; [discriminate E | reflexivity ..]).
  rewrite (getProp_nonnull _ _ Hn).
  destruct (field (lit "summary") result) as [[]|]; try discriminate.
  now injection E as ->.
Qed.

Lemma failedMessage_line (user : json) (email : jsstring) :
  codeNotValid user = true ->
  emailOf user = Some email ->
  failedMessage user = Normal (failureLine email).
Proof.
  intros Hc He.
  assert (Hn : isNull user = false) by (destruct user; [discriminate He | reflexivity ..]).
  unfold failedMessage.
  rewrite (getProp_nonnull _ _ Hn), (nestedCode_nonnull _ Hn). unfold bind.
  unfold emailOf in He.
  destruct (field (lit "email") user) as [[]|]; try discriminate.
  injection He as ->.
  unfold codeNotValid in Hc.
  destruct (codeAt user) as [[]|]; try discriminate.
  apply eqb_eq in Hc. subst. reflexivity.
Qed.

Lemma mapM_failedMessage (users : list json) (emails : list jsstring) :
  Forall (fun u => codeNotValid u = true) users ->
  Forall2 (fun u email => emailOf u = Some email) users emails ->
  mapM failedMessage users = Normal (map failureLine emails).
Proof.
  intros Hc He. induction He as [|u email users emails Hu _ IH]; [reflexivity|].
  inversion Hc as [|? ? Hcu Hcs]; subst. simpl.
  rewrite (failedMessage_line _ Hcu Hu), (IH Hcs). reflexivity.
Qed.

Lemma filter_Forall (entries : list json) :
  Forall (fun u => codeNotValid u = true) (filter codeNotValid entries).
Proof. apply Forall_forall. intros u Hu. now apply filter_In in Hu. Qed.

Lemma filter_nonempty (entries : list json) :
  existsb codeNotValid entries = true ->
  (List.length (filter codeNotValid entries) =? 0)%nat = false.
Proof.
  induction entries as [|e rest IH]; simpl; [discriminate|].
  destruct (codeNotValid e); simpl; auto.
Qed.

Lemma filter_empty (entries : list json) :
  existsb codeNotValid entries = false ->
  filter codeNotValid entries = [].
Proof.
  induction entries as [|e rest IH]; simpl; [reflexivity|].
  destruct (codeNotValid e); simpl; [discriminate|auto].
Qed.

Lemma dispatchAll_finally (acts : list action) (st : state) :
  dispatchAll (acts ++ [setIsLoading false]) st
  = dispatch (dispatchAll acts st) (setIsLoading false).
Proof. unfold dispatchAll. now rewrite fold_left_app. Qed.

(** The settled [try] block: one of three shapes. *)
Lemma tryBlock_cases (r : fetchResult) :
  (exists e, tryBlock r = Throw e)
  \/ tryBlock r = Normal [setMessage completed; setTaskInput []; setShowQrScanner false]
  \/ (exists lines, tryBlock r = Normal [setMessage (someFailed lines)]).
Proof.
  destruct r as [|ok body]; [left; eexists; reflexivity|].
  unfold tryBlock. destruct ok; simpl; [|left; eexists; reflexivity].
  destruct body as [j|]; simpl; [|left; eexists; reflexivity].
  destruct (getProp (Val j) (lit "summary")) as [summary|]; simpl;
    [|left; eexists; reflexivity].
  destruct (callFilter summary isFailed) as [kept|]; simpl;
    [|left; eexists; reflexivity].
  destruct (List.length kept =? 0)%nat; [right; left; reflexivity|].
  destruct (mapM failedMessage kept) as [lines|]; simpl;
    [right; right; eexists; reflexivity | left; eexists; reflexivity].
Qed.

(** The [try] block on a response that is [ok] and whose body parsed. *)
Lemma tryBlock_parsed (result : json) :
  tryBlock (Responded true (Some result))
  = (summary <- getProp (Val result) (lit "summary") ;;
     failedUsers <- callFilter summary isFailed ;;
     if (List.length failedUsers =? 0)%nat
     then Normal [setMessage completed; setTaskInput []; setShowQrScanner false]
     else
       failedMessages <- mapM failedMessage failedUsers ;;
       Normal [setMessage (someFailed failedMessages)]).
Proof. reflexivity. Qed.

Lemma tryBlock_filtered (result : json) (entries : list json) :
  summaryList result = Some entries ->
  tryBlock (Responded true (Some result))
  = (failedUsers <- filterM isFailed entries ;;
     if (List.length failedUsers =? 0)%nat
     then Normal [setMessage completed; setTaskInput []; setShowQrScanner false]
     else
       failedMessages <- mapM failedMessage failedUsers ;;
       Normal [setMessage (someFailed failedMessages)]).
Proof.
  intros Hs. rewrite tryBlock_parsed, (summaryList_getProp _ Hs). reflexivity.
Qed.

Lemma tryBlock_summary (result : json) (entries : list json) :
  summaryList result = Some entries ->
  existsb isNull entries = false ->
  tryBlock (Responded true (Some result))
  = if (List.length (filter codeNotValid entries) =? 0)%nat
    then Normal [setMessage completed; setTaskInput []; setShowQrScanner false]
    else
      failedMessages <- mapM failedMessage (filter codeNotValid entries) ;;
      Normal [setMessage (someFailed failedMessages)].
Proof.
  intros Hs Hn.
  rewrite (tryBlock_filtered _ Hs), (filterM_isFailed_nonnull _ Hn).
  reflexivity.
Qed.

(** C4, as the code has it. For every response whose summary list holds
    no [null] entry and no entry whose nested code equals
    [ATTENDANCE_NOT_VALID], the submission resolves to the success status
    and the input field is set to the empty string. *)
Theorem C4_no_failing_entry_is_success (result : json) (entries : list json)
    (st : state) :
  summaryList result = Some entries ->
  existsb isNull entries = false ->
  existsb codeNotValid entries = false ->
  settle (Responded true (Some result))
  = [setMessage completed; setTaskInput []; setShowQrScanner false;
     setIsLoading false]
  /\ status (dispatchAll (settle (Responded true (Some result))) st) = completed
  /\ isSuccess (status (dispatchAll (settle (Responded true (Some result))) st)) = true
  /\ taskInput (dispatchAll (settle (Responded true (Some result))) st) = [].
Proof.
  intros Hs Hn Hc.
  assert (E : settle (Responded true (Some result))
              = [setMessage completed; setTaskInput []; setShowQrScanner false;
                 setIsLoading false]).
  { unfold settle. rewrite (tryBlock_summary _ Hs Hn), (filter_empty _ Hc).
    reflexivity. }
  rewrite E. repeat split.
Qed.

Lemma settle_thrown (r : fetchResult) (e : exn) :
  tryBlock r = Throw e -> settle r = [setMessage processFailed; setIsLoading false].
Proof. intros E. unfold settle. now rewrite E. Qed.

(** A response with a failing entry never reports success and never
    touches the input, whatever else the summary holds. *)
Lemma failing_entry_keeps_input (result : json) (entries : list json) (st : state) :
  summaryList result = Some entries ->
  existsb codeNotValid entries = true ->
  isSuccess (status (dispatchAll (settle (Responded true (Some result))) st)) = false
  /\ taskInput (dispatchAll (settle (Responded true (Some result))) st) = taskInput st.
Proof.
  intros Hs Hc. unfold settle. rewrite (tryBlock_filtered _ Hs).
  destruct (filterM isFailed entries) as [kept|] eqn:Ef; [|split; reflexivity].
  destruct (filterM_isFailed_Normal _ Ef) as [_ ->].
  cbn [bind]. rewrite (filter_nonempty _ Hc).
  destruct (mapM failedMessage (filter codeNotValid entries)); split; reflexivity.
Qed.

(** C3, as the code has it. For every response whose summary holds no
    [null] entry and at least one entry with nested code
    [ATTENDANCE_NOT_VALID], each such entry having a string email, the
    outcome is a failure; its message is the heading followed by one line
    per failing entry, in order, each line being the first 11 characters of
    the entry's email upper-cased, then [": "], then the code; and the input
    field is left as it was. *)
Theorem C3_failing_entries_are_listed (result : json) (entries : list json)
    (emails : list jsstring) (st : state) :
  summaryList result = Some entries ->
  existsb isNull entries = false ->
  existsb codeNotValid entries = true ->
  Forall2 (fun u email => emailOf u = Some email)
          (filter codeNotValid entries) emails ->
  status (dispatchAll (settle (Responded true (Some result))) st)
  = someFailed (map failureLine emails)
  /\ isSuccess (status (dispatchAll (settle (Responded true (Some result))) st))
     = false
  /\ Forall (fun email =>
               exists t,
                 text (status (dispatchAll (settle (Responded true (Some result))) st))
                 = Some t
                 /\ includes t (failureLine email))
            emails
  /\ taskInput (dispatchAll (settle (Responded true (Some result))) st)
     = taskInput st.
Proof.
  intros Hs Hn Hc He.
  assert (E : settle (Responded true (Some result))
              = [setMessage (someFailed (map failureLine emails)); setIsLoading false]).
  { unfold settle.
    rewrite (tryBlock_summary _ Hs Hn), (filter_nonempty _ Hc).
    now rewrite (mapM_failedMessage (filter_Forall entries) He). }
  rewrite E. repeat split.
  apply Forall_forall. intros email Hin. eexists. split; [reflexivity|].
  apply (includes_after (0x274C%N :: lit " Some tasks failed:" ++ LF)).
  apply includes_join. now apply in_map.
Qed.

(** C5. Every transport failure (the fetch rejects, the response is not
    [ok] whatever its body, or the body is not JSON) resolves to the one
    generic failure message, which is a constant of the program and so
    carries nothing of any entry; and that message differs from every
    per-entry failure message. *)
Theorem C5_transport_failure_is_generic :
  settle Rejected = [setMessage processFailed; setIsLoading false]
  /\ (forall body,
        settle (Responded false body)
        = [setMessage processFailed; setIsLoading false])
  /\ settle (Responded true None) = [setMessage processFailed; setIsLoading false]
  /\ (forall lines, processFailed <> someFailed lines).
Proof.
  repeat split.
  intros lines E. unfold processFailed, someFailed in E.
  injection E as E. vm_compute in E. discriminate E.
Qed.

(** C8. A body that parses but has no summary list (it is not an object,
    or its [summary] is absent, [null] or not an array) resolves to the
    same actions as a rejected fetch: the TypeError of the access is
    caught, the generic failure message is set, and no per-entry message
    is. *)
Theorem C8_unusable_summary_is_generic (result : json) :
  summaryList result = None ->
  settle (Responded true (Some result)) = settle Rejected
  /\ settle (Responded true (Some result))
     = [setMessage processFailed; setIsLoading false]
  /\ throws (tryBlock (Responded true (Some result))) = true.
Proof.
  intros Hs.
  assert (E : exists e, tryBlock (Responded true (Some result)) = Throw e).
  { rewrite tryBlock_parsed.
    destruct (isNull result) eqn:Hn.
    - destruct result; try discriminate Hn. eexists; reflexivity.
    - rewrite (getProp_nonnull _ _ Hn). unfold bind at 1.
      unfold summaryList in Hs.
      destruct (field (lit "summary") result) as [[]|];
        try discriminate Hs; eexists; reflexivity. }
  destruct E as [e E]. rewrite (settle_thrown _ E), E. repeat split.
Qed.

(** C10. Every invocation of [handleAddTask] that starts a request ends,
    whatever the fetch settles to (success, per-entry failure, transport
    failure), with [isLoading] false: the text input and the QR button are
    enabled again and the Add button is disabled only while the input is
    blank, as before the submission. *)
Theorem C10_loading_flag_always_reset (seen : state) (id : option jsstring)
    (acts : list action) (req : request) (k : fetchResult -> list action)
    (r : fetchResult) (st : state) :
  handleAddTask seen id = AwaitFetch acts req k ->
  isLoading (dispatchAll (k r) st) = false
  /\ inputDisabled (dispatchAll (k r) st) = false
  /\ qrDisabled (dispatchAll (k r) st) = false
  /\ addDisabled (dispatchAll (k r) st)
     = negb (truthy (trim (taskInput (dispatchAll (k r) st)))).
Proof.
  unfold handleAddTask.
  destruct (negb (truthy _)); [discriminate|].
  intros E. injection E as _ _ <-.
  unfold settle, inputDisabled, qrDisabled, addDisabled.
  rewrite dispatchAll_finally. repeat split.
Qed.

(** C6. With no scanned value and an input that is empty or holds only
    white space, [handleAddTask] returns before the fetch: no request joins
    the fetches in flight, [isLoading] is left as it was (so unset when it
    was unset), and the status asks for a task. *)
Theorem C6_blank_input_sends_nothing (seen : state) (sys : system) :
  forallb isWhiteSpace (taskInput seen) = true ->
  handleAddTask seen None = Return [setMessage pleaseEnter]
  /\ inflight (run (handleAddTask seen None) sys) = inflight sys
  /\ isLoading (ui (run (handleAddTask seen None) sys)) = isLoading (ui sys)
  /\ status (ui (run (handleAddTask seen None) sys)) = pleaseEnter.
Proof.
  intros Hb. unfold handleAddTask. rewrite (trim_blank _ Hb). repeat split.
Qed.

(** *** Who may start a submission *)

Lemma KeyPressEnter_gated (sys : system) :
  isLoading (ui sys) = true -> step sys KeyPressEnter = sys.
Proof. intros Hl. unfold step, inputDisabled. now rewrite Hl. Qed.

Lemma ClickAdd_gated (sys : system) :
  isLoading (ui sys) = true -> step sys ClickAdd = sys.
Proof. intros Hl. unfold step, addDisabled. now rewrite Hl. Qed.

Lemma ClickQr_gated (sys : system) :
  isLoading (ui sys) = true -> step sys ClickQr = sys.
Proof. intros Hl. unfold step, qrDisabled. now rewrite Hl. Qed.

(** [handleQrScan] reads no [isLoading]: a scan while the scanner is shown
    starts a fetch, whatever is in flight. *)
Lemma Scan_not_gated (sys : system) (data : jsstring) :
  showQrScanner (ui sys) = true ->
  truthy data = true ->
  inflightIds (step sys (Scan (QrScanner.Decoded (Some data))))
  = inflightIds sys ++ [data]
  /\ isLoading (ui (step sys (Scan (QrScanner.Decoded (Some data))))) = true.
Proof.
  intros Hq Hd. unfold step. rewrite Hq. simpl QrScanner.tick. rewrite Hd.
  unfold handleQrScan, handleAddTask. rewrite Hd.
  unfold inflightIds. cbn beta iota zeta. rewrite Hd.
  cbn [negb andThen run inflight ui app].
  rewrite map_app. split; reflexivity.
Qed.

(** C1: the code at the failing trace. The scanner is opened, [abc] is
    typed and Enter is pressed: [isLoading] is set and one fetch is in
    flight. The scanner, still shown, then decodes [xyz]: [handleQrScan]
    calls [handleAddTask] without reading [isLoading], and a second fetch is
    in flight before the first has settled. *)
Theorem C1_scan_starts_second_submission :
  isLoading
    (ui (steps [ClickQr; Change (lit "abc"); KeyPressEnter] boot)) = true
  /\ showQrScanner
       (ui (steps [ClickQr; Change (lit "abc"); KeyPressEnter] boot)) = true
  /\ inflightIds (steps [ClickQr; Change (lit "abc"); KeyPressEnter] boot)
     = [lit "abc"]
  /\ inflightIds
       (steps [ClickQr; Change (lit "abc"); KeyPressEnter;
               Scan (QrScanner.Decoded (Some (lit "xyz")))] boot)
     = [lit "abc"; lit "xyz"].
Proof. repeat split. Qed.

End Outcome.

(** ** The claims on concrete inputs *)

Section Concrete.
Import TodoApp Reading Examples.

Lemma startsWithb_app (needle post : jsstring) :
  startsWithb (needle ++ post) needle = true.
Proof.
  induction needle as [|x needle IH]; simpl; [reflexivity|].
  now rewrite N.eqb_refl, IH.
Qed.

Lemma includes_includesb (hay needle : jsstring) :
  includes hay needle -> includesb hay needle = true.
Proof.
  intros (pre & post & ->). induction pre as [|c pre IH].
  - simpl app. destruct (needle ++ post) eqn:E; simpl;
      rewrite <- ?E, ?startsWithb_app; reflexivity.
  - simpl. rewrite IH. apply orb_true_r.
Qed.

Lemma C3_failing_entries_are_listed_witness :
  summaryList (body [bob; alice]) = Some [bob; alice]
  /\ existsb isNull [bob; alice] = false
  /\ existsb codeNotValid [bob; alice] = true
  /\ Forall2 (fun u email => emailOf u = Some email)
             (filter codeNotValid [bob; alice]) [lit "alice@example.com"]
  /\ status (dispatchAll (@settle asciiHost (Responded true (Some (body [bob; alice]))))
                         submitting)
     = someFailed [lit "ALICE@EXAMP: ATTENDANCE_NOT_VALID"]
  /\ taskInput (dispatchAll (@settle asciiHost (Responded true (Some (body [bob; alice]))))
                            submitting)
     = lit "abc".
Proof.
  assert (He : Forall2 (fun u email => emailOf u = Some email)
                       (filter codeNotValid [bob; alice]) [lit "alice@example.com"]).
  { repeat constructor. }
  destruct (@C3_failing_entries_are_listed asciiHost (body [bob; alice])
              [bob; alice] [lit "alice@example.com"] submitting
              eq_refl eq_refl eq_refl He) as (Hs & _ & _ & Ht).
  do 3 (split; [reflexivity|]). split; [exact He|].
  split; [exact Hs | exact Ht].
Defined.

(** C3, as stated, fails when the summary holds a [null] entry next to a
    failing one: the filter callback raises on [null], the exception is
    caught, and the message is the generic one, without the line of the
    failing entry. *)
Lemma C3_counterexample :
  summaryList (body [JNull; alice]) = Some [JNull; alice]
  /\ codeNotValid alice = true
  /\ emailOf alice = Some (lit "alice@example.com")
  /\ status (dispatchAll (@settle asciiHost (Responded true (Some (body [JNull; alice]))))
                         submitting)
     = processFailed
  /\ ~ includes (0x274C%N :: lit " Failed to process task. Please try again.")
                (lit "ALICE@EXAMP: ATTENDANCE_NOT_VALID").
Proof.
  repeat split.
  intros Hin. apply includes_includesb in Hin. vm_compute in Hin. discriminate Hin.
Qed.

(** A failing entry whose email is not a string: [email.slice] raises in
    the map callback and the outcome is the generic failure. *)
Lemma failing_entry_without_email `{Host} :
  codeNotValid nameless = true
  /\ emailOf nameless = None
  /\ settle (Responded true (Some (body [nameless])))
     = [setMessage processFailed; setIsLoading false].
Proof. repeat split. Qed.

Lemma C4_no_failing_entry_is_success_witness :
  summaryList (body [bob; carol]) = Some [bob; carol]
  /\ existsb isNull [bob; carol] = false
  /\ existsb codeNotValid [bob; carol] = false
  /\ status (dispatchAll (@settle asciiHost (Responded true (Some (body [bob; carol]))))
                         submitting)
     = completed
  /\ taskInput (dispatchAll (@settle asciiHost (Responded true (Some (body [bob; carol]))))
                            submitting)
     = [].
Proof.
  destruct (@C4_no_failing_entry_is_success asciiHost (body [bob; carol])
              [bob; carol] submitting eq_refl eq_refl eq_refl)
    as (_ & Hs & _ & Ht).
  do 3 (split; [reflexivity|]). split; [exact Hs | exact Ht].
Defined.

(** C4, as stated, fails on a summary whose only entry is [null]: no entry
    has the code, yet the filter callback raises, the outcome is the
    generic failure and the input is not cleared. *)
Lemma C4_counterexample :
  summaryList (body [JNull]) = Some [JNull]
  /\ existsb codeNotValid [JNull] = false
  /\ status (dispatchAll (@settle asciiHost (Responded true (Some (body [JNull]))))
                         submitting)
     = processFailed
  /\ isSuccess (status (dispatchAll
                          (@settle asciiHost (Responded true (Some (body [JNull]))))
                          submitting))
     = false
  /\ taskInput (dispatchAll (@settle asciiHost (Responded true (Some (body [JNull]))))
                            submitting)
     = lit "abc".
Proof. repeat split. Qed.

Lemma C8_unusable_summary_is_generic_witness :
  summaryList (JObj [(lit "summary", JStr (lit "none"))]) = None
  /\ @settle asciiHost
       (Responded true (Some (JObj [(lit "summary", JStr (lit "none"))])))
     = [setMessage processFailed; setIsLoading false].
Proof.
  destruct (@C8_unusable_summary_is_generic asciiHost
              (JObj [(lit "summary", JStr (lit "none"))]) eq_refl)
    as (_ & H & _).
  split; [reflexivity | exact H].
Defined.

Lemma C10_loading_flag_always_reset_witness :
  @handleAddTask asciiHost submitting None
  = AwaitFetch [setIsLoading true; setMessage cleared]
      {| url := lit "http://localhost:3000/api/mark-all-present";
         method := lit "POST";
         contentType := lit "application/json";
         attendanceId := lit "abc" |}
      (@settle asciiHost)
  /\ isLoading (dispatchAll (@settle asciiHost Rejected) submitting) = false.
Proof.
  split; [reflexivity|].
  exact (proj1 (@C10_loading_flag_always_reset asciiHost submitting None
                  _ _ _ Rejected submitting eq_refl)).
Defined.

Lemma C6_blank_input_sends_nothing_witness :
  forallb isWhiteSpace (taskInput blank) = true
  /\ @handleAddTask asciiHost blank None = Return [setMessage pleaseEnter].
Proof.
  split; [reflexivity|].
  exact (proj1 (@C6_blank_input_sends_nothing asciiHost blank boot eq_refl)).
Defined.

End Concrete.

(* ================================================================== *)
(** * Further properties of the code *)

(** ** What [trim] leaves *)

Section Trim.
Import Page.

Lemma trimStart_head (s : jsstring) :
  match trimStart s with
  | [] => forallb isWhiteSpace s = true
  | c :: _ => isWhiteSpace c = false
  end.
Proof.
  induction s as [|c s IH]; simpl; [reflexivity|].
  destruct (isWhiteSpace c) eqn:E; simpl; [exact IH | exact E].
Qed.

Lemma trimStart_fixed (c : N) (s : jsstring) :
  isWhiteSpace c = false -> trimStart (c :: s) = c :: s.
Proof. intros E. simpl. now rewrite E. Qed.

Lemma trimStart_snoc (s : jsstring) (c : N) :
  isWhiteSpace c = false -> trimStart (s ++ [c]) = trimStart s ++ [c].
Proof.
  intros E. induction s as [|d s IH]; simpl; [now rewrite E|].
  destruct (isWhiteSpace d); [exact IH | reflexivity].
Qed.

Lemma forallb_rev (s : jsstring) :
  forallb isWhiteSpace (rev s) = forallb isWhiteSpace s.
Proof.
  induction s as [|c s IH]; simpl; [reflexivity|].
  rewrite forallb_app, IH. simpl. rewrite andb_true_r. apply andb_comm.
Qed.

(** [trim] gives the empty string exactly on a string of white space. *)
Lemma trim_nil_iff (s : jsstring) :
  trim s = [] <-> forallb isWhiteSpace s = true.
Proof.
  split; [|apply trim_blank].
  unfold trim, trimEnd. intros E.
  assert (E' : trimStart (rev (trimStart s)) = []).
  { destruct (trimStart (rev (trimStart s))) as [|c t] eqn:Et; [reflexivity|].
    simpl in E. now destruct (rev t). }
  pose proof (trimStart_head (rev (trimStart s))) as H1. rewrite E' in H1.
  rewrite forallb_rev in H1.
  pose proof (trimStart_head s) as H2.
  destruct (trimStart s) as [|c t]; [exact H2|].
  simpl in H1. rewrite H2 in H1. discriminate H1.
Qed.

Lemma truthy_trim (s : jsstring) :
  truthy (trim s) = negb (forallb isWhiteSpace s).
Proof.
  destruct (forallb isWhiteSpace s) eqn:E.
  - apply trim_nil_iff in E. now rewrite E.
  - destruct (trim s) eqn:Et; [|reflexivity].
    apply trim_nil_iff in Et. congruence.
Qed.

(** A string that is not blank keeps, under [trim], a first and a last
    code unit that are not white space. *)
Lemma trim_ends (s : jsstring) :
  forallb isWhiteSpace s = false ->
  notWhiteSpace (first (trim s)) = true /\ notWhiteSpace (last (trim s)) = true.
Proof.
  intros Hs. unfold first, last, trim, trimEnd. rewrite rev_involutive.
  pose proof (trimStart_head s) as H1.
  destruct (trimStart s) as [|c t] eqn:Et; [congruence|].
  simpl rev. rewrite (trimStart_snoc _ _ H1), rev_app_distr. simpl.
  rewrite H1. split; [reflexivity|].
  pose proof (trimStart_head (rev t)) as H2.
  destruct (trimStart (rev t)) as [|d u]; simpl; [now rewrite H1 | now rewrite H2].
Qed.

Lemma trim_idem (s : jsstring) : trim (trim s) = trim s.
Proof.
  destruct (forallb isWhiteSpace s) eqn:Hs.
  - now rewrite (trim_blank _ Hs).
  - destruct (trim_ends _ Hs) as [Hf Hl]. unfold first, last in *.
    remember (trim s) as r eqn:Er. clear Er Hs.
    destruct r as [|c r]; [reflexivity|]. simpl in Hf.
    apply negb_true_iff in Hf.
    unfold trim, trimEnd. rewrite (trimStart_fixed _ _ Hf).
    destruct (rev (c :: r)) as [|d u] eqn:Eu; [discriminate Hl|].
    simpl in Hl. apply negb_true_iff in Hl.
    rewrite (trimStart_fixed _ _ Hl), <- Eu. apply rev_involutive.
Qed.

End Trim.

(** ** What a submission sends and how it can end *)

Section Submission.
Import TodoApp Reading Page.
Context `{Host}.

Lemma API_BASE_URL_truthy : truthy API_BASE_URL = true.
Proof.
  unfold API_BASE_URL. destruct VITE_API_BASE_URL as [u|]; [|reflexivity].
  destruct (truthy u) eqn:E; [exact E | reflexivity].
Qed.

(** X1. With no scanned value and an input that is not blank,
    [handleAddTask] starts exactly one request: a POST to the base URL
    followed by [/api/mark-all-present], whose attendance id is the input
    trimmed. That id neither starts nor ends with white space, trimming
    it again changes nothing, and the base URL is never empty. *)
Theorem X1_typed_input_is_sent_trimmed (seen : state) (sys : system) :
  forallb isWhiteSpace (taskInput seen) = false ->
  handleAddTask seen None
  = AwaitFetch [setIsLoading true; setMessage cleared]
      {| url := API_BASE_URL ++ lit "/api/mark-all-present";
         method := lit "POST";
         contentType := lit "application/json";
         attendanceId := trim (taskInput seen) |}
      settle
  /\ inflightIds (run (handleAddTask seen None) sys)
     = inflightIds sys ++ [trim (taskInput seen)]
  /\ notWhiteSpace (first (trim (taskInput seen))) = true
  /\ notWhiteSpace (last (trim (taskInput seen))) = true
  /\ trim (trim (taskInput seen)) = trim (taskInput seen)
  /\ truthy API_BASE_URL = true.
Proof.
  intros Hs.
  assert (E : handleAddTask seen None
              = AwaitFetch [setIsLoading true; setMessage cleared]
                  {| url := API_BASE_URL ++ lit "/api/mark-all-present";
                     method := lit "POST";
                     contentType := lit "application/json";
                     attendanceId := trim (taskInput seen) |}
                  settle).
  { unfold handleAddTask. now rewrite truthy_trim, Hs. }
  destruct (trim_ends _ Hs) as [Hf Hl].
  rewrite E. split; [reflexivity|]. split.
  - unfold inflightIds. simpl. now rewrite map_app.
  - repeat split; auto using trim_idem, API_BASE_URL_truthy.
Qed.

(** X2. A scanned value that is not empty is submitted as it is, without
    trimming, whatever the text input holds: [handleQrScan] puts it
    in the input, closes the scanner, sets [isLoading], clears the status
    and starts exactly one request carrying it. *)
Theorem X2_scanned_data_is_sent_verbatim (seen : state) (data : jsstring)
    (sys : system) :
  truthy data = true ->
  inflightIds (run (handleQrScan seen data) sys) = inflightIds sys ++ [data]
  /\ ui (run (handleQrScan seen data) sys)
     = {| taskInput := data; isLoading := true; status := cleared;
          showQrScanner := false |}.
Proof.
  intros Hd. unfold handleQrScan, handleAddTask. rewrite Hd. cbn beta iota zeta.
  rewrite Hd. cbn [negb andThen run inflight ui app]. split.
  - unfold inflightIds. simpl. now rewrite map_app.
  - reflexivity.
Qed.

Lemma processFailed_not_someFailed (lines : list jsstring) :
  processFailed <> someFailed lines.
Proof.
  intros E. unfold processFailed, someFailed in E.
  injection E as E. vm_compute in E. discriminate E.
Qed.

Lemma settle_page (r : fetchResult) (st : state) :
  isLoading (dispatchAll (settle r) st) = false
  /\ ((status (dispatchAll (settle r) st) = completed
       /\ taskInput (dispatchAll (settle r) st) = []
       /\ showQrScanner (dispatchAll (settle r) st) = false)
      \/ (isSuccess (status (dispatchAll (settle r) st)) = false
          /\ (exists t, text (status (dispatchAll (settle r) st)) = Some t)
          /\ taskInput (dispatchAll (settle r) st) = taskInput st
          /\ showQrScanner (dispatchAll (settle r) st) = showQrScanner st)).
Proof.
  unfold settle. rewrite dispatchAll_finally. split; [reflexivity|].
  destruct (tryBlock_cases r) as [[e E] | [E | [lines E]]]; rewrite E; simpl.
  - right. repeat split. eexists; reflexivity.
  - left. repeat split.
  - right. repeat split. eexists; reflexivity.
Qed.

(** X3. However the fetch settles, the page ends in one of two ways, and
    [isLoading] is false in both. Success: the status is the success
    message, the input is empty and the scanner is closed. Failure: the
    status is a failure with a text, and the input and the scanner are as
    they were. *)
Theorem X3_settled_page_is_success_or_untouched (r : fetchResult) (st : state) :
  isLoading (dispatchAll (settle r) st) = false
  /\ ((status (dispatchAll (settle r) st) = completed
       /\ taskInput (dispatchAll (settle r) st) = []
       /\ showQrScanner (dispatchAll (settle r) st) = false)
      \/ (isSuccess (status (dispatchAll (settle r) st)) = false
          /\ (exists t, text (status (dispatchAll (settle r) st)) = Some t)
          /\ taskInput (dispatchAll (settle r) st) = taskInput st
          /\ showQrScanner (dispatchAll (settle r) st) = showQrScanner st)).
Proof. exact (settle_page r st). Qed.

(** The three outcomes, by the status they set. *)
Lemma settle_status (r : fetchResult) (st : state) :
  status (dispatchAll (settle r) st)
  = match tryBlock r with
    | Throw _ => processFailed
    | Normal acts =>
        match acts with
        | setMessage m :: _ => m
        | _ => status st
        end
    end.
Proof.
  unfold settle. rewrite dispatchAll_finally.
  destruct (tryBlock_cases r) as [[e E] | [E | [lines E]]]; rewrite E; reflexivity.
Qed.

Lemma failedMessage_Normal (user : json) (line : jsstring) :
  failedMessage user = Normal line ->
  isNull user = false /\ exists email, emailOf user = Some email.
Proof.
  intros E. destruct (isNull user) eqn:Hn.
  - destruct user; try discriminate Hn. discriminate E.
  - split; [reflexivity|]. unfold failedMessage in E.
    rewrite (getProp_nonnull _ _ Hn), (nestedCode_nonnull _ Hn) in E.
    cbn [bind] in E. unfold emailOf.
    destruct (field (lit "email") user) as [[]|]; try discriminate E.
    eexists; reflexivity.
Qed.

Lemma mapM_failedMessage_Normal (users : list json) (lines : list jsstring) :
  mapM failedMessage users = Normal lines ->
  Forall (fun u => exists email, emailOf u = Some email) users.
Proof.
  revert lines. induction users as [|u users IH]; intros lines E; [constructor|].
  simpl in E. destruct (failedMessage u) as [l|] eqn:Eu; [|discriminate E].
  cbn [bind] in E.
  destruct (mapM failedMessage users) as [ls|] eqn:Es; [|discriminate E].
  constructor; [exact (proj2 (failedMessage_Normal _ Eu)) | exact (IH _ eq_refl)].
Qed.

(** The [try] block ends normally only on an [ok] response whose body
    parsed to an object with a summary list free of [null]. *)
Lemma tryBlock_Normal (r : fetchResult) (acts : list action) :
  tryBlock r = Normal acts ->
  exists result entries,
    r = Responded true (Some result)
    /\ summaryList result = Some entries
    /\ existsb isNull entries = false.
Proof.
  destruct r as [|ok body]; [discriminate|].
  destruct ok; [|discriminate]. destruct body as [result|]; [|discriminate].
  rewrite tryBlock_parsed. intros E.
  destruct (isNull result) eqn:Hn.
  { destruct result; try discriminate Hn. discriminate E. }
  rewrite (getProp_nonnull _ _ Hn) in E. cbn [bind] in E.
  destruct (field (lit "summary") result) as [[| | | |entries|]|] eqn:Es;
    try discriminate E.
  simpl in E. destruct (filterM isFailed entries) as [kept|] eqn:Ef;
    [|discriminate E].
  exists result, entries. split; [reflexivity|]. split.
  - unfold summaryList. now rewrite Es.
  - exact (proj1 (filterM_isFailed_Normal _ Ef)).
Qed.

(** X4. The success message is set exactly when the response is [ok],
    its body parses to an object whose [summary] is an array, and that
    array holds no [null] and no entry whose nested code is
    [ATTENDANCE_NOT_VALID]; an empty summary is such a response. *)
Theorem X4_success_exactly_when_no_entry_fails (r : fetchResult) (st : state) :
  (status (dispatchAll (settle r) st) = completed
   <-> exists result entries,
         r = Responded true (Some result)
         /\ summaryList result = Some entries
         /\ existsb isNull entries = false
         /\ existsb codeNotValid entries = false)
  /\ status (dispatchAll (settle (Responded true (Some (body [])))) st) = completed.
Proof.
  split; [|reflexivity]. rewrite settle_status. split.
  - destruct (tryBlock r) as [acts|] eqn:E; [|discriminate].
    destruct (tryBlock_Normal _ E) as (result & entries & -> & Hs & Hn).
    intros Hc. exists result, entries. repeat split; auto.
    rewrite (tryBlock_summary _ Hs Hn) in E.
    destruct (existsb codeNotValid entries) eqn:Hf; [|reflexivity].
    rewrite (filter_nonempty _ Hf) in E.
    destruct (mapM failedMessage (filter codeNotValid entries));
      [|discriminate E].
    cbn [bind] in E. injection E as <-. discriminate Hc.
  - intros (result & entries & -> & Hs & Hn & Hf).
    now rewrite (tryBlock_summary _ Hs Hn), (filter_empty _ Hf).
Qed.

Lemma Forall_emails (users : list json) :
  Forall (fun u => exists email, emailOf u = Some email) users ->
  exists emails, Forall2 (fun u email => emailOf u = Some email) users emails.
Proof.
  induction 1 as [|u users [email Hu] _ [emails IH]].
  - exists []. constructor.
  - exists (email :: emails). now constructor.
Qed.

(** X5. A per-entry failure message is set exactly when the response is
    [ok], its body parses to an object whose [summary] is an array without
    [null], at least one entry has the nested code [ATTENDANCE_NOT_VALID],
    and every such entry has a string email. Every other response that
    is not a success gets the generic message. *)
Theorem X5_per_entry_failure_exactly_when_listable (r : fetchResult) (st : state) :
  ((exists lines, status (dispatchAll (settle r) st) = someFailed lines)
   <-> exists result entries,
         r = Responded true (Some result)
         /\ summaryList result = Some entries
         /\ existsb isNull entries = false
         /\ existsb codeNotValid entries = true
         /\ Forall (fun u => exists email, emailOf u = Some email)
                   (filter codeNotValid entries))
  /\ (status (dispatchAll (settle r) st) = completed
      \/ status (dispatchAll (settle r) st) = processFailed
      \/ exists lines, status (dispatchAll (settle r) st) = someFailed lines).
Proof.
  rewrite settle_status. split; [split|].
  - intros [lines Hl].
    destruct (tryBlock r) as [acts|] eqn:E;
      [|now apply processFailed_not_someFailed in Hl].
    destruct (tryBlock_Normal _ E) as (result & entries & -> & Hs & Hn).
    exists result, entries. rewrite (tryBlock_summary _ Hs Hn) in E.
    destruct (existsb codeNotValid entries) eqn:Hf.
    + rewrite (filter_nonempty _ Hf) in E.
      destruct (mapM failedMessage (filter codeNotValid entries)) as [ls|] eqn:Em;
        [|discriminate E].
      repeat split; auto. exact (mapM_failedMessage_Normal _ Em).
    + rewrite (filter_empty _ Hf) in E. simpl in E. injection E as <-.
      discriminate Hl.
  - intros (result & entries & -> & Hs & Hn & Hf & He).
    destruct (Forall_emails He) as [emails He2].
    rewrite (tryBlock_summary _ Hs Hn), (filter_nonempty _ Hf).
    rewrite (mapM_failedMessage (filter_Forall entries) He2).
    eexists; reflexivity.
  - destruct (tryBlock_cases r) as [[e E] | [E | [lines E]]]; rewrite E; simpl; eauto.
Qed.

(** X6. The map callback of lines 235-239, on any entry. When the
    email is a string and the nested code can be rendered, it returns the
    first 11 code units of the email (all of it when it is shorter)
    upper-cased, then [": "], then the code as the template renders it
    ([undefined] when a link is missing). It raises a TypeError on every
    other entry: when the email is not a string ([null] entry included),
    and when the code is an object with an own [toString] property. *)
Theorem X6_failedMessage_on_any_entry (user : json) :
  failedMessage user
  = match emailOf user with
    | Some email =>
        code <- ToString (ofOption (codeAt user)) ;;
        Normal (toUpperCase (slice0 11 email) ++ lit ": " ++ code)
    | None => Throw TypeError
    end
  /\ (throws (failedMessage user) = true
      <-> emailOf user = None
          \/ throws (ToString (ofOption (codeAt user))) = true)
  /\ (forall email, (List.length (slice0 11 email) <= 11)%nat)
  /\ (forall email, (List.length email <= 11)%nat -> slice0 11 email = email)
  /\ ToString (ofOption None) = Normal (lit "undefined")
  /\ (forall props,
        ToString (Val (JObj props))
        = if hasOwn (lit "toString") props
          then Throw TypeError
          else Normal (lit "[object Object]")).
Proof.
  assert (E : failedMessage user
              = match emailOf user with
                | Some email =>
                    code <- ToString (ofOption (codeAt user)) ;;
                    Normal (toUpperCase (slice0 11 email) ++ lit ": " ++ code)
                | None => Throw TypeError
                end).
  { destruct (isNull user) eqn:Hn.
    - destruct user; try discriminate Hn. reflexivity.
    - unfold failedMessage, emailOf.
      rewrite (getProp_nonnull _ _ Hn), (nestedCode_nonnull _ Hn). cbn [bind].
      destruct (field (lit "email") user) as [[]|]; reflexivity. }
  split; [exact E|]. split; [|split; [|split; [|split]]].
  - rewrite E. destruct (emailOf user) as [email|].
    + destruct (ToString (ofOption (codeAt user))); simpl; split.
      * discriminate.
      * intros [Hc | Hc]; discriminate Hc.
      * auto.
      * reflexivity.
    + simpl. split; auto.
  - intros email. unfold slice0. rewrite length_firstn. apply Nat.le_min_l.
  - intros email Hl. unfold slice0. now apply firstn_all2.
  - reflexivity.
  - reflexivity.
Qed.

End Submission.

(** ** Pages reached by events *)

Section Pages.
Import TodoApp Reading Page.
Context `{Host}.

Lemma handleAddTask_cases (seen : state) (id : option jsstring) :
  handleAddTask seen id = Return [setMessage pleaseEnter]
  \/ exists req,
       handleAddTask seen id
       = AwaitFetch [setIsLoading true; setMessage cleared] req settle
       /\ truthy (attendanceId req) = true.
Proof.
  unfold handleAddTask.
  match goal with |- context [negb (truthy ?v)] => destruct (truthy v) eqn:E end.
  - right. eexists. split; [reflexivity | exact E].
  - left. reflexivity.
Qed.

Lemma handleAddTask_typed (seen : state) :
  truthy (trim (taskInput seen)) = true ->
  exists req,
    handleAddTask seen None
    = AwaitFetch [setIsLoading true; setMessage cleared] req settle
    /\ attendanceId req = trim (taskInput seen).
Proof.
  intros E. unfold handleAddTask. rewrite E. eexists. split; reflexivity.
Qed.

Lemma handleQrScan_scanned (seen : state) (data : jsstring) :
  truthy data = true ->
  exists req,
    handleQrScan seen data
    = AwaitFetch [setTaskInput data; setShowQrScanner false;
                  setIsLoading true; setMessage cleared] req settle
    /\ attendanceId req = data.
Proof.
  intros E. unfold handleQrScan, handleAddTask. rewrite E. cbn beta iota zeta.
  rewrite E. eexists. split; reflexivity.
Qed.

Lemma tick_truthy (f : QrScanner.frame) (data : jsstring) :
  QrScanner.tick f = Some data -> truthy data = true.
Proof.
  destruct f as [|[d|]|]; simpl; try discriminate.
  destruct (truthy d) eqn:E; [|discriminate]. now intros [= <-].
Qed.

Lemma removeNth_Forall {A} (P : A -> Prop) (n : nat) (l : list A) :
  Forall P l -> Forall P (removeNth n l).
Proof.
  intros Hl. revert n. induction Hl as [|x l Hx Hl IH]; intros [|n]; simpl;
    auto using Forall_nil.
Qed.

Lemma run_sound (a : async) (sys : system) :
  sound sys ->
  (exists acts, a = Return acts
                /\ isLoading (dispatchAll acts (ui sys)) = isLoading (ui sys))
  \/ (exists acts req, a = AwaitFetch acts req settle
                       /\ truthy (attendanceId req) = true) ->
  sound (run a sys).
Proof.
  intros [Hs Hl] [(acts & -> & Ha) | (acts & req & -> & Hr)]; split; simpl.
  - exact Hs.
  - unfold nothingInFlight in *. simpl. now rewrite Ha.
  - apply Forall_app. split; [exact Hs|]. repeat constructor. exact Hr.
  - unfold nothingInFlight. simpl.
    destruct (inflight sys); simpl; apply andb_false_r.
Qed.

Lemma step_sound (sys : system) (e : event) : sound sys -> sound (step sys e).
Proof.
  intros Hs. destruct e as [v| | | | |f|i r]; unfold step.
  - destruct (inputDisabled (ui sys)); [exact Hs|].
    apply run_sound; [exact Hs|]. left. eexists. split; reflexivity.
  - destruct (inputDisabled (ui sys)); [exact Hs|].
    destruct (truthy (trim (taskInput (ui sys))) && negb (isLoading (ui sys)));
      [|exact Hs].
    apply run_sound; [exact Hs|].
    destruct (handleAddTask_cases (ui sys) None) as [E | (req & E & Hr)]; rewrite E.
    + left. eexists. split; reflexivity.
    + right. eauto.
  - destruct (addDisabled (ui sys)); [exact Hs|].
    apply run_sound; [exact Hs|].
    destruct (handleAddTask_cases (ui sys) None) as [E | (req & E & Hr)]; rewrite E.
    + left. eexists. split; reflexivity.
    + right. eauto.
  - destruct (qrDisabled (ui sys)); [exact Hs|].
    apply run_sound; [exact Hs|]. left. eexists. split; reflexivity.
  - destruct (showQrScanner (ui sys)); [|exact Hs].
    apply run_sound; [exact Hs|]. left. eexists. split; reflexivity.
  - destruct (showQrScanner (ui sys)); [|exact Hs].
    destruct (QrScanner.tick f) as [data|] eqn:Et; [|exact Hs].
    apply run_sound; [exact Hs|].
    destruct (handleQrScan_scanned (ui sys) data (tick_truthy _ Et))
      as (req & E & Hr).
    rewrite E. right. do 2 eexists. split; [reflexivity|].
    rewrite Hr. exact (tick_truthy _ Et).
  - destruct (nth_error (inflight sys) i) as [[req k]|] eqn:En; [|exact Hs].
    destruct Hs as [Hs Hl]. split.
    + apply removeNth_Forall. exact Hs.
    + simpl.
      assert (Hk : k = settle).
      { apply nth_error_In in En.
        unfold startedByHandler in Hs. rewrite Forall_forall in Hs.
        exact (proj1 (Hs _ En)). }
      subst k. now rewrite (proj1 (settle_page r (ui sys))).
Qed.

Lemma steps_sound (es : list event) (sys : system) :
  sound sys -> sound (steps es sys).
Proof.
  revert sys. induction es as [|e es IH]; intros sys Hs; [exact Hs|].
  simpl. apply IH. now apply step_sound.
Qed.

Lemma boot_sound : sound boot.
Proof. split; [constructor | reflexivity]. Qed.

(** X7. On every page reached from the initial one by any events (typing,
    Enter, the buttons, scans, settlements in any order), every request in
    flight carries a non-empty attendance id, and [isLoading] is never left
    set once nothing is in flight: the controls cannot stay disabled for
    good. *)
Theorem X7_no_empty_id_and_never_stuck_loading (es : list event) :
  Forall (fun id => truthy id = true) (inflightIds (steps es boot))
  /\ isLoading (ui (steps es boot)) && nothingInFlight (steps es boot) = false.
Proof.
  destruct (steps_sound es boot_sound) as [Hs Hl]. split; [|exact Hl].
  unfold inflightIds. apply Forall_map.
  unfold startedByHandler in Hs. rewrite Forall_forall in *.
  intros p Hp. exact (proj2 (Hs p Hp)).
Qed.

Lemma step_exclusive (sys : system) (e : event) :
  exclusive sys -> quiet e = true -> exclusive (step sys e).
Proof.
  intros Hx Hq.
  assert (Hrun : forall a,
             isLoading (ui sys) = false ->
             (a = Return [setMessage pleaseEnter]
              \/ exists req, a = AwaitFetch [setIsLoading true; setMessage cleared]
                                   req settle) ->
             exclusive (run a sys)).
  { intros a Hl Ha. destruct Hx as [[Hi _] | (req & _ & Hl')]; [|congruence].
    unfold exclusive. destruct Ha as [-> | [req ->]]; simpl.
    - left. split; [exact Hi | exact Hl].
    - right. exists req. rewrite Hi. split; reflexivity. }
  assert (Hset : forall acts,
             isLoading (dispatchAll acts (ui sys)) = isLoading (ui sys) ->
             exclusive (run (Return acts) sys)).
  { intros acts Hl.
    unfold exclusive.
    destruct Hx as [[Hi Hl'] | (req & Hi & Hl')]; cbn [run ui inflight].
    - left. split; [exact Hi | congruence].
    - right. exists req. split; [exact Hi | congruence]. }
  destruct e as [v| | | | |f|i r]; unfold step.
  - destruct (inputDisabled (ui sys)); [exact Hx|]. now apply Hset.
  - unfold inputDisabled. destruct (isLoading (ui sys)) eqn:Hl; [exact Hx|].
    destruct (truthy (trim (taskInput (ui sys))) && negb false); [|exact Hx].
    apply Hrun; [reflexivity|].
    destruct (handleAddTask_cases (ui sys) None) as [E | (req & E & _)]; eauto.
  - unfold addDisabled. destruct (isLoading (ui sys)) eqn:Hl; [exact Hx|].
    destruct (false || negb (truthy (trim (taskInput (ui sys))))); [exact Hx|].
    apply Hrun; [reflexivity|].
    destruct (handleAddTask_cases (ui sys) None) as [E | (req & E & _)]; eauto.
  - destruct (qrDisabled (ui sys)); [exact Hx|]. now apply Hset.
  - destruct (showQrScanner (ui sys)); [|exact Hx]. now apply Hset.
  - simpl in Hq. destruct (showQrScanner (ui sys)); [|exact Hx].
    destruct (QrScanner.tick f); [discriminate Hq | exact Hx].
  - destruct (nth_error (inflight sys) i) as [[req' k]|] eqn:En; [|exact Hx].
    destruct Hx as [[Hi Hl] | (req & Hi & Hl)]; rewrite Hi in En.
    + destruct i; discriminate En.
    + destruct i as [|i]; [|destruct i; discriminate En].
      simpl in En. injection En as <- <-.
      left. rewrite Hi. simpl.
      split; [reflexivity | exact (proj1 (settle_page r (ui sys)))].
Qed.

Lemma steps_exclusive (es : list event) (sys : system) :
  exclusive sys -> forallb quiet es = true -> exclusive (steps es sys).
Proof.
  revert sys. induction es as [|e es IH]; intros sys Hx Hq; [exact Hx|].
  simpl in Hq. apply andb_true_iff in Hq. destruct Hq as [He Hes].
  simpl. apply IH; [now apply step_exclusive | exact Hes].
Qed.

(** X8. As long as no scan decodes a QR code, submissions exclude one
    another: on every page reached from the initial one by the other
    events, at most one fetch is in flight, and [isLoading] is set exactly
    while one is. *)
Theorem X8_one_submission_at_a_time_without_scans (es : list event) :
  forallb quiet es = true ->
  (List.length (inflight (steps es boot)) <= 1)%nat
  /\ isLoading (ui (steps es boot)) = negb (nothingInFlight (steps es boot)).
Proof.
  intros Hq.
  assert (Hb : exclusive boot) by (left; split; reflexivity).
  destruct (steps_exclusive es Hb Hq) as [[Hi Hl] | (req & Hi & Hl)];
    unfold nothingInFlight; rewrite Hi, Hl; simpl; split; auto.
Qed.

(** X10. A typed submission and what Enter does after it has settled.
    From an idle page with an input that is not blank, Enter starts a
    request and the fetch settles. When it settled with success the input
    is empty and a second Enter sends nothing; when it settled with a
    failure of either kind the input is as it was and a second Enter sends
    the same id again. *)
Theorem X10_enter_again_resubmits_only_after_failure (sys : system)
    (r : fetchResult) :
  inflight sys = [] ->
  isLoading (ui sys) = false ->
  forallb isWhiteSpace (taskInput (ui sys)) = false ->
  inflightIds (steps [KeyPressEnter] sys) = [trim (taskInput (ui sys))]
  /\ inflightIds (steps [KeyPressEnter; Settled 0 r] sys) = []
  /\ inflightIds (steps [KeyPressEnter; Settled 0 r; KeyPressEnter] sys)
     = if isSuccess (status (ui (steps [KeyPressEnter; Settled 0 r] sys)))
       then []
       else [trim (taskInput (ui sys))].
Proof.
  intros Hi Hl Hb.
  assert (Et : truthy (trim (taskInput (ui sys))) = true).
  { now rewrite truthy_trim, Hb. }
  destruct (handleAddTask_typed (ui sys) Et) as (req & E & Hr).
  assert (E1 : step sys KeyPressEnter
               = {| ui := dispatchAll [setIsLoading true; setMessage cleared] (ui sys);
                    inflight := [(req, settle)] |}).
  { unfold step, inputDisabled. rewrite Hl, Et. simpl andb. cbv iota.
    rewrite E. simpl. now rewrite Hi. }
  unfold steps. cbn [fold_left]. rewrite E1.
  split; [unfold inflightIds; simpl; now rewrite Hr|].
  cbn [step nth_error inflight ui removeNth].
  split; [reflexivity|].
  set (st1 := dispatchAll [setIsLoading true; setMessage cleared] (ui sys)).
  destruct (settle_page r st1) as [Hl2 [(Hc & Hin & _) | (Hf & _ & Hin & _)]].
  - rewrite Hc. simpl isSuccess. cbv iota.
    unfold step, inputDisabled. cbn [ui]. rewrite Hl2, Hin. reflexivity.
  - rewrite Hf.
    assert (Hin' : taskInput (dispatchAll (settle r) st1) = taskInput (ui sys)).
    { rewrite Hin. reflexivity. }
    unfold step, inputDisabled. cbn [ui]. rewrite Hl2, Hin', Et. simpl andb. cbv iota.
    destruct (handleAddTask_typed (dispatchAll (settle r) st1)) as (req2 & E2 & Hr2).
    { now rewrite Hin'. }
    rewrite E2. unfold inflightIds. simpl. now rewrite Hr2, Hin'.
Qed.

End Pages.

(** ** The scanner over its life *)

Section ScannerLife.
Import QrScanner Lifecycle.

Lemma filter_all {A} (f : A -> bool) (l : list A) :
  forallb f l = true -> filter f l = l.
Proof.
  induction l as [|x l IH]; simpl; [reflexivity|].
  rewrite andb_true_iff. intros [-> Hl]. now rewrite IH.
Qed.

Lemma filter_none {A} (f : A -> bool) (l : list A) :
  existsb f l = false -> filter f l = [].
Proof.
  induction l as [|x l IH]; simpl; [reflexivity|].
  rewrite orb_false_iff. intros [-> Hl]. exact (IH Hl).
Qed.

Lemma existsb_filter {A} (f g : A -> bool) (l : list A) :
  existsb f (filter g l) = existsb (fun x => f x && g x) l.
Proof.
  induction l as [|x l IH]; simpl; [reflexivity|].
  destruct (g x); simpl; rewrite IH; [now rewrite andb_true_r|].
  now rewrite andb_false_r.
Qed.

(** Stopping the tracks [ts] keeps exactly the live tracks outside [ts]. *)
Lemma stopTracks_filter (ts live : list trackId) :
  stopTracks ts live = filter (fun u => negb (existsb (Nat.eqb u) ts)) live.
Proof.
  revert live. induction ts as [|t ts IH]; intros live.
  - simpl. induction live as [|u live IHl]; simpl; [reflexivity|].
    now rewrite <- IHl.
  - change (stopTracks (t :: ts) live) with (stopTracks ts (stopTrack t live)).
    rewrite IH. unfold stopTrack.
    induction live as [|u live IHl]; simpl; [reflexivity|].
    destruct (Nat.eqb u t); simpl; [exact IHl|].
    destruct (existsb (Nat.eqb u) ts); simpl; now rewrite IHl.
Qed.

Lemma existsb_stopTracks (t : trackId) (ts live : list trackId) :
  existsb (Nat.eqb t) ts = false ->
  existsb (Nat.eqb t) (stopTracks ts live) = existsb (Nat.eqb t) live.
Proof.
  intros Ht. rewrite stopTracks_filter, existsb_filter.
  induction live as [|u live IH]; simpl; [reflexivity|].
  rewrite IH. destruct (Nat.eqb t u) eqn:E; [|reflexivity].
  apply Nat.eqb_eq in E. subst u. now rewrite Ht.
Qed.

Lemma existsb_clearInterval (id h : timerId) (timers : list timerId) :
  Pos.eqb id h = false ->
  existsb (Pos.eqb id) (clearInterval h timers) = existsb (Pos.eqb id) timers.
Proof.
  intros Hd. unfold clearInterval. rewrite existsb_filter.
  induction timers as [|u timers IH]; simpl; [reflexivity|].
  rewrite IH. destruct (Pos.eqb id u) eqn:E; [|reflexivity].
  apply Pos.eqb_eq in E. subst u. now rewrite Hd.
Qed.

(** X12. [stopCamera] touches nothing but its own: an interval other
    than the one named by the timer handle stays scheduled or unscheduled as
    it was, a track outside the held stream stays live or stopped as it was,
    and the timer handle, the handle counter, the camera flag, the refs and
    the zoom state are unchanged. *)
Theorem X12_stopCamera_leaves_the_rest (s : session) (id : timerId) (t : trackId) :
  isHandle id s = false ->
  inStream t s = false ->
  scheduled id (stopCamera s) = scheduled id s
  /\ trackLive t (stopCamera s) = trackLive t s
  /\ scanIntervalRef (stopCamera s) = scanIntervalRef s
  /\ nextTimer (stopCamera s) = nextTimer s
  /\ hasCamera (stopCamera s) = hasCamera s
  /\ mounted (stopCamera s) = mounted s
  /\ zoomLevel (stopCamera s) = zoomLevel s
  /\ zoomRange (stopCamera s) = zoomRange s.
Proof.
  destruct s as [sr si m hc zl zr lt at' nt].
  unfold isHandle, inStream, streamTracks, scheduled, trackLive, stopCamera. simpl.
  intros Hh Ht.
  destruct sr as [stream|], si as [h|]; simpl; repeat split;
    auto using existsb_clearInterval, existsb_stopTracks.
Qed.

Lemma X12_stopCamera_leaves_the_rest_witness :
  isHandle 1%positive
    (startScanning (startScanning (fst (startCamera (Some oneTrackCamera) initial))))
  = false
  /\ inStream 7%nat
       (startScanning (startScanning (fst (startCamera (Some oneTrackCamera) initial))))
     = false
  /\ scheduled 1%positive
       (stopCamera
          (startScanning (startScanning (fst (startCamera (Some oneTrackCamera) initial)))))
     = true.
Proof.
  split; [reflexivity|]. split; [reflexivity|].
  destruct (X12_stopCamera_leaves_the_rest
              (startScanning (startScanning (fst (startCamera (Some oneTrackCamera) initial))))
              1%positive 7%nat eq_refl eq_refl) as (Hs & _).
  rewrite Hs. reflexivity.
Defined.

Lemma fresh_not_scheduled (id : timerId) (timers : list timerId) :
  forallb (fun u => Pos.ltb u id) timers = true ->
  clearInterval id timers = timers.
Proof.
  intros Hf. apply clearInterval_absent.
  destruct (existsb (Pos.eqb id) timers) eqn:E; [|reflexivity].
  apply existsb_exists in E. destruct E as (u & Hu & Eu).
  apply Pos.eqb_eq in Eu. subst u.
  rewrite forallb_forall in Hf. specialize (Hf _ Hu).
  apply Pos.ltb_lt in Hf. lia.
Qed.

(** X13. Opening and closing the scanner gives the window back as it
    was. On a mounted instance whose scheduled intervals all precede the
    handle counter, a granted stream of tracks that were not live, followed
    by the metadata callback (with or without zoom capability) and then
    [stopCamera], leaves exactly the intervals that were scheduled and
    exactly the tracks that were live, and no stream is held. *)
Theorem X13_open_then_stop_restores_the_window (s : session)
    (stream : MediaStream) (zoom : option ZoomCapability) :
  mounted s = true ->
  timersFresh s = true ->
  tracksNew stream s = true ->
  activeTimers (applyAll [Granted stream; LoadedMetadata zoom; Stop] s)
  = activeTimers s
  /\ liveTracks (applyAll [Granted stream; LoadedMetadata zoom; Stop] s)
     = liveTracks s
  /\ streamRef (applyAll [Granted stream; LoadedMetadata zoom; Stop] s) = None
  /\ timerScheduled (applyAll [Granted stream; LoadedMetadata zoom; Stop] s) = false.
Proof.
  destruct s as [sr si m hc zl zr lt at' nt].
  unfold timersFresh, tracksNew, trackLive. intros Hm Hf Hn.
  cbn [mounted nextTimer activeTimers liveTracks] in Hm, Hf, Hn. subst m.
  cbn [activeTimers liveTracks].
  assert (Ht : activeTimers
                 (applyAll [Granted stream; LoadedMetadata zoom; Stop]
                    {| streamRef := sr; scanIntervalRef := si; mounted := true;
                       hasCamera := hc; zoomLevel := zl; zoomRange := zr;
                       liveTracks := lt; activeTimers := at'; nextTimer := nt |})
               = clearInterval nt (nt :: at')).
  { destruct zoom; reflexivity. }
  assert (Hl : liveTracks
                 (applyAll [Granted stream; LoadedMetadata zoom; Stop]
                    {| streamRef := sr; scanIntervalRef := si; mounted := true;
                       hasCamera := hc; zoomLevel := zl; zoomRange := zr;
                       liveTracks := lt; activeTimers := at'; nextTimer := nt |})
               = stopTracks (getTracks stream) (getTracks stream ++ lt)).
  { destruct zoom; reflexivity. }
  split; [|split; [|split]].
  - rewrite Ht. unfold clearInterval. simpl. rewrite Pos.eqb_refl. simpl.
    exact (fresh_not_scheduled nt at' Hf).
  - rewrite Hl, stopTracks_filter, filter_app.
    rewrite filter_none, filter_all; [reflexivity| |].
    + rewrite forallb_forall. intros u Hu.
      destruct (existsb (Nat.eqb u) (getTracks stream)) eqn:E; [|reflexivity].
      apply existsb_exists in E. destruct E as (v & Hv & Ev).
      apply Nat.eqb_eq in Ev. subst v.
      rewrite forallb_forall in Hn. specialize (Hn _ Hv).
      apply negb_true_iff in Hn.
      assert (Hc : existsb (Nat.eqb u) lt = true).
      { apply existsb_exists. exists u. split; [exact Hu | apply Nat.eqb_refl]. }
      congruence.
    + destruct (existsb (fun u => negb (existsb (Nat.eqb u) (getTracks stream)))
                        (getTracks stream)) eqn:E; [|exact E].
      apply existsb_exists in E. destruct E as (v & Hv & Ev).
      apply negb_true_iff in Ev.
      assert (Hc : existsb (Nat.eqb v) (getTracks stream) = true).
      { apply existsb_exists. exists v. split; [exact Hv | apply Nat.eqb_refl]. }
      congruence.
  - apply stopCamera_streamRef.
  - apply stopCamera_unscheduled.
Qed.

Lemma X13_open_then_stop_restores_the_window_witness :
  mounted initial = true
  /\ timersFresh initial = true
  /\ tracksNew oneTrackCamera initial = true
  /\ activeTimers (applyAll [Granted oneTrackCamera; LoadedMetadata None; Stop] initial)
     = []
  /\ liveTracks (applyAll [Granted oneTrackCamera; LoadedMetadata None; Stop] initial)
     = [].
Proof.
  do 3 (split; [reflexivity|]).
  destruct (X13_open_then_stop_restores_the_window initial oneTrackCamera None
              eq_refl eq_refl eq_refl) as (Ht & Hl & _).
  split; [exact Ht | exact Hl].
Defined.

(** X14. Only the interval named by the handle is ever cancelled. When
    [startScanning] runs twice on a mounted instance before [stopCamera]
    (the metadata callback firing again), the second call overwrites the
    handle, and after [stopCamera] the first interval is still scheduled. *)
Theorem X14_second_startScanning_orphans_the_first (s : session) :
  mounted s = true ->
  scanIntervalRef (startScanning (startScanning s)) = Some (Pos.succ (nextTimer s))
  /\ scheduled (nextTimer s) (startScanning (startScanning s)) = true
  /\ scheduled (nextTimer s) (stopCamera (startScanning (startScanning s))) = true
  /\ scheduled (Pos.succ (nextTimer s))
       (stopCamera (startScanning (startScanning s))) = false.
Proof.
  destruct s as [sr si m hc zl zr lt at' nt]. simpl. intros ->.
  assert (Hd : Pos.eqb nt (Pos.succ nt) = false) by (apply Pos.eqb_neq; lia).
  assert (Ha : activeTimers
                 (stopCamera
                    (startScanning
                       (startScanning
                          {| streamRef := sr; scanIntervalRef := si; mounted := true;
                             hasCamera := hc; zoomLevel := zl; zoomRange := zr;
                             liveTracks := lt; activeTimers := at';
                             nextTimer := nt |})))
               = clearInterval (Pos.succ nt) (Pos.succ nt :: nt :: at')).
  { destruct sr; reflexivity. }
  unfold scheduled. rewrite Ha. split; [reflexivity|]. split; [|split].
  - simpl. now rewrite Hd, Pos.eqb_refl.
  - unfold clearInterval. simpl. rewrite Pos.eqb_refl, Hd. simpl.
    now rewrite Pos.eqb_refl.
  - apply clearInterval_gone.
Qed.

Lemma X14_second_startScanning_orphans_the_first_witness :
  mounted initial = true
  /\ scheduled 1%positive (stopCamera (startScanning (startScanning initial))) = true.
Proof.
  split; [reflexivity|].
  destruct (X14_second_startScanning_orphans_the_first initial eq_refl)
    as (_ & _ & H & _).
  exact H.
Defined.

Lemma forallb_ltb_succ (timers : list timerId) (nt : timerId) :
  forallb (fun id => Pos.ltb id nt) timers = true ->
  forallb (fun id => Pos.ltb id (Pos.succ nt)) timers = true.
Proof.
  rewrite !forallb_forall. intros Hf u Hu. specialize (Hf _ Hu).
  apply Pos.ltb_lt in Hf. apply Pos.ltb_lt. lia.
Qed.

Lemma forallb_clearInterval (f : timerId -> bool) (h : timerId)
    (timers : list timerId) :
  forallb f timers = true -> forallb f (clearInterval h timers) = true.
Proof.
  rewrite !forallb_forall. intros Hf u Hu. apply Hf.
  unfold clearInterval in Hu. now apply filter_In in Hu.
Qed.

Lemma apply_wellKept (s : session) (o : op) : wellKept s -> wellKept (apply s o).
Proof.
  destruct s as [sr si m hc zl zr lt at' nt].
  unfold wellKept, timersFresh, handleFresh. simpl. intros (Hf & Hh & Hz).
  assert (Hscan : forall zl' zr',
             Qeq_bool (step zr') 0 = false ->
             wellKept
               (startScanning
                  {| streamRef := sr; scanIntervalRef := si; mounted := m;
                     hasCamera := hc; zoomLevel := zl'; zoomRange := zr';
                     liveTracks := lt; activeTimers := at'; nextTimer := nt |})).
  { intros zl' zr' Hz'. unfold wellKept, timersFresh, handleFresh, startScanning.
    destruct m; simpl; [|auto].
    repeat split; auto using forallb_ltb_succ.
    - apply andb_true_iff. split; [|now apply forallb_ltb_succ].
      apply Pos.ltb_lt. lia.
    - apply Pos.ltb_lt. lia. }
  destruct o as [stream| |zoom|q| |]; simpl.
  - auto.
  - auto.
  - unfold onloadedmetadata. destruct zoom as [z|]; [|now apply Hscan].
    apply Hscan. simpl.
    destruct (zoom_step z) as [q|]; [|reflexivity].
    destruct (Qeq_bool q 0) eqn:E; [reflexivity | exact E].
  - auto.
  - auto.
  - unfold stopCamera. destruct sr as [stream|], si as [h|]; simpl;
      auto using forallb_clearInterval.
Qed.

Lemma applyAll_wellKept (ops : list op) (s : session) :
  wellKept s -> wellKept (applyAll ops s).
Proof.
  revert s. induction ops as [|o ops IH]; intros s Hs; [exact Hs|].
  simpl. apply IH. now apply apply_wellKept.
Qed.

(** X15. Whatever happens to a scanner instance, in any order (camera
    granted or denied, metadata loaded with or without zoom capability,
    zoom changes, refs detached, stops): every scheduled interval and the
    handle held were handed out before the next handle, so a new interval
    never reuses the handle of a scheduled one; and the step of the zoom
    slider is never zero (a reported step of zero or none becomes 1). *)
Theorem X15_instance_invariants (ops : list op) :
  timersFresh (applyAll ops initial) = true
  /\ handleFresh (applyAll ops initial) = true
  /\ Qeq_bool (step (zoomRange (applyAll ops initial))) 0 = false
  /\ scheduled (nextTimer (applyAll ops initial)) (applyAll ops initial) = false.
Proof.
  assert (Hi : wellKept initial) by (repeat split).
  destruct (applyAll_wellKept ops Hi) as (Hf & Hh & Hz).
  repeat split; auto.
  unfold scheduled, timersFresh in *.
  destruct (existsb _ _) eqn:E; [|reflexivity].
  apply existsb_exists in E. destruct E as (u & Hu & Eu).
  apply Pos.eqb_eq in Eu. subst u.
  rewrite forallb_forall in Hf. specialize (Hf _ Hu).
  apply Pos.ltb_lt in Hf. lia.
Qed.

Lemma hasCamera_stays_false (ops : list op) (s : session) :
  hasCamera s = false -> hasCamera (applyAll ops s) = false.
Proof.
  revert s. induction ops as [|o ops IH]; intros s Hs; [exact Hs|].
  simpl. apply IH. destruct s as [sr si m hc zl zr lt at' nt]. simpl in Hs. subst hc.
  destruct o as [stream| |zoom|q| |]; simpl; try reflexivity.
  - unfold onloadedmetadata, startScanning.
    destruct zoom; simpl; destruct m; reflexivity.
  - unfold stopCamera. destruct sr, si; reflexivity.
Qed.

(** X16. A denied camera. [startCamera] passes
    [Camera access denied or not available] to [onError]; [handleQrError]
    shows it as a failure and leaves the input, [isLoading] and the scanner
    flag of the page as they were, so a task can still be typed. The
    instance holds what it held (no stream is stored, no interval is
    touched), and from then on, whatever else happens to it, [hasCamera]
    stays false and the effect never requests the camera again: it only
    stops. *)
Theorem X16_denied_camera_is_reported_and_final (s : session)
    (st : TodoApp.state) (ops : list op) (isActive : bool) :
  snd (startCamera None s) = Some (lit "Camera access denied or not available")
  /\ TodoApp.dispatchAll
       (TodoApp.handleQrError (lit "Camera access denied or not available")) st
     = {| TodoApp.taskInput := TodoApp.taskInput st;
          TodoApp.isLoading := TodoApp.isLoading st;
          TodoApp.status :=
            {| TodoApp.text := Some (lit "Camera access denied or not available");
               TodoApp.isSuccess := false |};
          TodoApp.showQrScanner := TodoApp.showQrScanner st |}
  /\ streamRef (apply s Denied) = streamRef s
  /\ activeTimers (apply s Denied) = activeTimers s
  /\ liveTracks (apply s Denied) = liveTracks s
  /\ hasCamera (applyAll (Denied :: ops) s) = false
  /\ effect isActive (applyAll (Denied :: ops) s)
     = (stopCamera (applyAll (Denied :: ops) s), false).
Proof.
  assert (Hc : hasCamera (applyAll (Denied :: ops) s) = false).
  { simpl. apply hasCamera_stays_false. now destruct s. }
  split; [reflexivity|]. split; [reflexivity|].
  split; [now destruct s|]. split; [now destruct s|]. split; [now destruct s|].
  split; [exact Hc|].
  unfold effect. rewrite Hc. now rewrite andb_false_r.
Qed.

Lemma existsb_app_l (t : trackId) (ts live : list trackId) :
  In t ts -> existsb (Nat.eqb t) (ts ++ live) = true.
Proof.
  intros Hin. apply existsb_exists. exists t.
  split; [apply in_or_app; now left | apply Nat.eqb_refl].
Qed.

(** X18. A grant that comes late. When the instance has been unmounted
    (refs detached, [stopCamera] run by the cleanup) before [getUserMedia]
    resolves, [startCamera] still stores the granted stream: its tracks are
    live, the metadata callback schedules no interval, and nothing that
    is left will call [stopCamera] for that stream. *)
Theorem X18_late_grant_leaves_the_camera_on (s : session) (stream : MediaStream)
    (zoom : option ZoomCapability) :
  streamRef (applyAll [Detach; Stop; Granted stream; LoadedMetadata zoom] s)
  = Some stream
  /\ forallb (fun t =>
                trackLive t
                  (applyAll [Detach; Stop; Granted stream; LoadedMetadata zoom] s))
             (getTracks stream) = true
  /\ timerScheduled (applyAll [Detach; Stop; Granted stream; LoadedMetadata zoom] s)
     = false
  /\ activeTimers (applyAll [Detach; Stop; Granted stream; LoadedMetadata zoom] s)
     = activeTimers (stopCamera s).
Proof.
  destruct s as [sr si m hc zl zr lt at' nt].
  split; [destruct sr, si, zoom; reflexivity|].
  split; [|split].
  - apply forallb_forall. intros t Ht. unfold trackLive.
    destruct sr, si, zoom; simpl; now apply existsb_app_l.
  - unfold timerScheduled.
    destruct sr, si, zoom; simpl; try reflexivity; apply clearInterval_gone.
  - destruct sr, si, zoom; reflexivity.
Qed.

End ScannerLife.

(** ** The further properties on concrete inputs *)

Section ConcretePages.
Import TodoApp Reading Page Examples.

Lemma X1_typed_input_is_sent_trimmed_witness :
  forallb isWhiteSpace (taskInput padded) = false
  /\ inflightIds (run (@handleAddTask asciiHost padded None) boot) = [lit "abc"].
Proof.
  split; [reflexivity|].
  destruct (@X1_typed_input_is_sent_trimmed asciiHost padded boot eq_refl)
    as (_ & Hi & _).
  exact Hi.
Defined.

Lemma X2_scanned_data_is_sent_verbatim_witness :
  truthy (lit "  ") = true
  /\ inflightIds (run (@handleQrScan asciiHost padded (lit "  ")) boot) = [lit "  "].
Proof.
  split; [reflexivity|].
  exact (proj1 (@X2_scanned_data_is_sent_verbatim asciiHost padded (lit "  ") boot
                  eq_refl)).
Defined.

Lemma X8_one_submission_at_a_time_without_scans_witness :
  forallb quiet [Change (lit "abc"); KeyPressEnter; ClickAdd; KeyPressEnter] = true
  /\ (List.length
        (inflight (@steps asciiHost
                     [Change (lit "abc"); KeyPressEnter; ClickAdd; KeyPressEnter] boot))
      <= 1)%nat.
Proof.
  split; [reflexivity|].
  exact (proj1 (@X8_one_submission_at_a_time_without_scans asciiHost
                  [Change (lit "abc"); KeyPressEnter; ClickAdd; KeyPressEnter]
                  eq_refl)).
Defined.

Lemma X10_enter_again_resubmits_only_after_failure_witness :
  inflight {| ui := padded; inflight := [] |} = []
  /\ isLoading padded = false
  /\ forallb isWhiteSpace (taskInput padded) = false
  /\ inflightIds
       (@steps asciiHost [KeyPressEnter; Settled 0 Rejected; KeyPressEnter]
          {| ui := padded; inflight := [] |})
     = [lit "abc"].
Proof.
  do 3 (split; [reflexivity|]).
  destruct (@X10_enter_again_resubmits_only_after_failure asciiHost
              {| ui := padded; inflight := [] |} Rejected eq_refl eq_refl eq_refl)
    as (_ & _ & H).
  exact H.
Defined.

End ConcretePages.

(** ** The page together with its scanner *)

Section WholeApp.
Import QrScanner Lifecycle TodoApp Page.
Context `{Host}.

(** An event of the page changes the status to one the submission code
    sets, or leaves it. *)
Lemma step_status_or_same (sys : system) (e : event) :
  sound sys ->
  status (ui (step sys e)) = status (ui sys)
  \/ submissionStatus (status (ui (step sys e))).
Proof.
  intros [Hs _].
  assert (Hc : submissionStatus cleared) by (left; reflexivity).
  destruct e as [v| | | | |f|i r]; unfold step.
  - destruct (inputDisabled (ui sys)); left; reflexivity.
  - destruct (inputDisabled (ui sys)); [left; reflexivity|].
    destruct (truthy (trim (taskInput (ui sys)))) eqn:Et; simpl;
      [|left; reflexivity].
    destruct (negb (isLoading (ui sys))); [|left; reflexivity].
    destruct (handleAddTask_typed (ui sys) Et) as (req & E & _).
    rewrite E. right. exact Hc.
  - unfold addDisabled. destruct (isLoading (ui sys)); [left; reflexivity|].
    destruct (truthy (trim (taskInput (ui sys)))) eqn:Et; simpl;
      [|left; reflexivity].
    destruct (handleAddTask_typed (ui sys) Et) as (req & E & _).
    rewrite E. right. exact Hc.
  - destruct (qrDisabled (ui sys)); left; reflexivity.
  - destruct (showQrScanner (ui sys)); left; reflexivity.
  - destruct (showQrScanner (ui sys)); [|left; reflexivity].
    destruct (QrScanner.tick f) as [data|] eqn:Et; [|left; reflexivity].
    destruct (handleQrScan_scanned (ui sys) data (tick_truthy _ Et))
      as (req & E & _).
    rewrite E. right. exact Hc.
  - destruct (nth_error (inflight sys) i) as [[req k]|] eqn:En;
      [|left; reflexivity].
    assert (Hk : k = settle).
    { apply nth_error_In in En.
      unfold startedByHandler in Hs. rewrite Forall_forall in Hs.
      exact (proj1 (Hs _ En)). }
    subst k. right. simpl. rewrite settle_status. unfold submissionStatus.
    destruct (tryBlock_cases r) as [[e E] | [E | [lines E]]]; rewrite E; eauto.
Qed.

Lemma cameraDenied_error (c : session) :
  snd (App.cameraDenied c) = Some (lit "Camera access denied or not available").
Proof. unfold App.cameraDenied. now destruct (mounted c). Qed.

Lemma handleQrScan_ui (seen : state) (data : jsstring) (sys : system) :
  truthy data = true ->
  ui (run (handleQrScan seen data) sys)
  = {| taskInput := data; isLoading := true; status := cleared;
       showQrScanner := false |}
  /\ inflightIds (run (handleQrScan seen data) sys) = inflightIds sys ++ [data].
Proof.
  intros Hd. destruct (handleQrScan_scanned seen data Hd) as (req & E & Hr).
  rewrite E. split; [reflexivity|].
  unfold inflightIds. cbn [run inflight]. rewrite map_app. simpl. now rewrite Hr.
Qed.

(** The invariant of the page within the whole: its fetches come from
    [handleAddTask], [isLoading] is false when none is in flight, and its
    status is one the code sets. *)
Lemma app_step_sound (a : App.app) (e : App.event) :
  sound (App.page a) /\ shownStatus (status (ui (App.page a))) ->
  sound (App.page (App.step a e))
  /\ shownStatus (status (ui (App.page (App.step a e)))).
Proof.
  intros [Hs Hm].
  assert (Hpage : forall e',
             sound (step (App.page a) e')
             /\ shownStatus (status (ui (step (App.page a) e')))).
  { intros e'. split; [now apply step_sound|].
    destruct (step_status_or_same e' Hs) as [E | E];
      [rewrite E; exact Hm | left; exact E]. }
  destruct e as [e'|stream| |zoom|id f].
  - destruct e'; try apply Hpage. split; assumption.
  - split; assumption.
  - unfold App.step. cbn [App.page]. rewrite cameraDenied_error. split.
    + apply run_sound; [exact Hs|]. left. eexists. split; reflexivity.
    + right. reflexivity.
  - split; assumption.
  - unfold App.step. destruct (scheduled id (App.cam a)); [|split; assumption].
    destruct (QrScanner.tick f) as [data|] eqn:Et; [|split; assumption].
    cbn [App.page].
    destruct (handleQrScan_scanned (ui (App.page a)) data (tick_truthy _ Et))
      as (req & E & Hr).
    rewrite E. split.
    + apply run_sound; [exact Hs|]. right. do 2 eexists. split; [reflexivity|].
      rewrite Hr. exact (tick_truthy _ Et).
    + left. left. reflexivity.
Qed.

Lemma app_steps_sound (es : list App.event) (a : App.app) :
  sound (App.page a) /\ shownStatus (status (ui (App.page a))) ->
  sound (App.page (App.steps es a))
  /\ shownStatus (status (ui (App.page (App.steps es a)))).
Proof.
  revert a. induction es as [|e es IH]; intros a Ha; [exact Ha|].
  simpl. apply IH. now apply app_step_sound.
Qed.

Lemma app_boot_sound :
  sound (App.page App.boot) /\ shownStatus (status (ui (App.page App.boot))).
Proof. split; [exact boot_sound | left; left; reflexivity]. Qed.

(** X9. On every page reached from the initial one by any events of the
    page and of its scanner (typing, Enter, the buttons, settlements, the
    camera granted or refused, metadata loaded, ticks of scheduled
    intervals), the status is empty, the success message, the generic
    failure, a per-entry failure or the camera message of [handleQrError].
    The status [Please enter a task or scan QR] of lines 199-205 is never
    shown: Enter and the Add button call [handleAddTask] only on an input
    that is not blank, and a tick only with a non-empty text. *)
Theorem X9_blank_input_status_is_never_shown (es : list App.event) :
  shownStatus (status (ui (App.page (App.steps es App.boot))))
  /\ status (ui (App.page (App.steps es App.boot))) <> pleaseEnter.
Proof.
  destruct (app_steps_sound es App.boot app_boot_sound) as [_ Hm].
  split; [exact Hm|]. intros E. rewrite E in Hm.
  destruct Hm as [[Hm | [Hm | [Hm | [lines Hm]]]] | Hm]; discriminate Hm.
Qed.

(** X19. The invariant of the page holds with the scanner attached: on
    every page reached by any events of the page and of its scanner, every
    request in flight carries a non-empty attendance id, and [isLoading] is
    never left set once nothing is in flight. *)
Theorem X19_whole_app_never_stuck_loading (es : list App.event) :
  Forall (fun id => truthy id = true)
         (inflightIds (App.page (App.steps es App.boot)))
  /\ isLoading (ui (App.page (App.steps es App.boot)))
     && nothingInFlight (App.page (App.steps es App.boot)) = false.
Proof.
  destruct (app_steps_sound es App.boot app_boot_sound) as [[Hs Hl] _].
  split; [|exact Hl].
  unfold inflightIds. apply Forall_map.
  unfold startedByHandler in Hs. rewrite Forall_forall in *.
  intros p Hp. exact (proj2 (Hs p Hp)).
Qed.



(** With no interval scheduled, no tick reaches the page. *)
Lemma ticks_without_interval (l : list (timerId * frame)) (a : App.app) :
  activeTimers (App.cam a) = [] ->
  App.steps (App.ticks l) a = a.
Proof.
  intros Ha. induction l as [|[id f] l IH]; [reflexivity|].
  change (App.steps (App.ticks ((id, f) :: l)) a)
    with (App.steps (App.ticks l) (App.step a (App.Tick id f))).
  replace (App.step a (App.Tick id f)) with a; [exact IH|].
  unfold App.step, scheduled. now rewrite Ha.
Qed.

(** Unmounting clears the interval the handle names. *)
Lemma unmountScanner_timers (c : session) :
  activeTimers (App.unmountScanner c)
  = match scanIntervalRef c with
    | Some id => clearInterval id (activeTimers c)
    | None => activeTimers c
    end.
Proof.
  unfold App.unmountScanner, cleanup.
  rewrite (proj2 (stopCamera_window (detachRefs c))). reflexivity.
Qed.

Lemma unmountScanner_single (c : session) (id : timerId) :
  scanIntervalRef c = Some id ->
  activeTimers c = [id] ->
  activeTimers (App.unmountScanner c) = [].
Proof.
  intros Hi Ha. rewrite unmountScanner_timers, Hi, Ha.
  unfold clearInterval. simpl. now rewrite Pos.eqb_refl.
Qed.


(** X17. While a submission is in flight and the scanner is open, its
    handle naming the only scheduled interval: the QR/Close button is
    disabled and does nothing, but the X of the scanner panel still closes
    the scanner; the instance is unmounted, its cleanup clears the interval,
    and whatever ticks follow, none starts a request: the fetch in flight
    and [isLoading] are as they were. *)
Theorem X17_closing_the_scanner_stops_scans (a : App.app) (id : timerId)
    (after : list (timerId * frame)) :
  isLoading (ui (App.page a)) = true ->
  showQrScanner (ui (App.page a)) = true ->
  scanIntervalRef (App.cam a) = Some id ->
  activeTimers (App.cam a) = [id] ->
  App.step a (App.OnPage ClickQr) = a
  /\ showQrScanner
       (ui (App.page (App.steps (App.OnPage ClickCloseScanner :: App.ticks after) a)))
     = false
  /\ inflight (App.page (App.steps (App.OnPage ClickCloseScanner :: App.ticks after) a))
     = inflight (App.page a)
  /\ isLoading
       (ui (App.page (App.steps (App.OnPage ClickCloseScanner :: App.ticks after) a)))
     = true
  /\ activeTimers
       (App.cam (App.steps (App.OnPage ClickCloseScanner :: App.ticks after) a))
     = [].
Proof.
  intros Hl Hq Hi Ha. split.
  - unfold App.step. rewrite (ClickQr_gated _ Hl).
    unfold App.rerender. rewrite Hq. now destruct a.
  - assert (E1 : App.step a (App.OnPage ClickCloseScanner)
                 = {| App.page :=
                        {| ui := dispatch (ui (App.page a)) (setShowQrScanner false);
                           inflight := inflight (App.page a) |};
                      App.cam := App.unmountScanner (App.cam a) |}).
    { unfold App.step, App.rerender, step. rewrite Hq. reflexivity. }
    change (App.steps (App.OnPage ClickCloseScanner :: App.ticks after) a)
      with (App.steps (App.ticks after) (App.step a (App.OnPage ClickCloseScanner))).
    rewrite E1, ticks_without_interval;
      [|exact (unmountScanner_single _ Hi Ha)].
    cbn [App.page App.cam ui inflight].
    repeat split; [exact Hl | exact (unmountScanner_single _ Hi Ha)].
Qed.

(** X20. A tick of any interval that is still scheduled reaches the
    page, open scanner or not, submission in flight or not. So when
    [startScanning] has run twice on the mounted instance (the metadata
    callback fired again), closing the scanner clears only the second
    interval, and a later tick of the first that decodes a text starts a
    request from a page whose scanner is closed. *)
Theorem X20_orphaned_interval_still_submits (p : system) (c : session)
    (data : jsstring) :
  mounted c = true ->
  showQrScanner (ui p) = true ->
  truthy data = true ->
  showQrScanner
    (ui (App.page
           (App.step {| App.page := p; App.cam := startScanning (startScanning c) |}
                     (App.OnPage ClickCloseScanner))))
  = false
  /\ scheduled (nextTimer c)
       (App.cam
          (App.step {| App.page := p; App.cam := startScanning (startScanning c) |}
                    (App.OnPage ClickCloseScanner)))
     = true
  /\ inflightIds
       (App.page
          (App.steps [App.OnPage ClickCloseScanner;
                      App.Tick (nextTimer c) (Decoded (Some data))]
                     {| App.page := p; App.cam := startScanning (startScanning c) |}))
     = inflightIds p ++ [data].
Proof.
  intros Hm Hq Hd.
  assert (E1 : App.step {| App.page := p; App.cam := startScanning (startScanning c) |}
                        (App.OnPage ClickCloseScanner)
               = {| App.page :=
                      {| ui := dispatch (ui p) (setShowQrScanner false);
                         inflight := inflight p |};
                    App.cam := App.unmountScanner (startScanning (startScanning c)) |}).
  { unfold App.step, App.rerender, step. cbn [App.page App.cam]. rewrite Hq.
    reflexivity. }
  assert (Hs : scheduled (nextTimer c)
                 (App.unmountScanner (startScanning (startScanning c))) = true).
  { destruct c as [sr si m hc zl zr lt at' nt]. simpl in Hm. subst m.
    assert (Hd' : Pos.eqb nt (Pos.succ nt) = false) by (apply Pos.eqb_neq; lia).
    unfold scheduled. rewrite unmountScanner_timers.
    unfold startScanning, clearInterval. simpl.
    rewrite Pos.eqb_refl, Hd'. simpl. now rewrite Pos.eqb_refl. }
  unfold App.steps. cbn [fold_left]. rewrite E1. cbn [App.page App.cam].
  split; [reflexivity|]. split; [exact Hs|].
  unfold App.step. cbn [App.page App.cam]. rewrite Hs.
  simpl QrScanner.tick. rewrite Hd. cbn [App.page].
  set (p1 := {| ui := dispatch (ui p) (setShowQrScanner false);
                inflight := inflight p |}).
  exact (proj2 (handleQrScan_ui (ui p1) data p1 Hd)).
Qed.

End WholeApp.

Section ConcreteApp.
Import QrScanner Lifecycle TodoApp Page AppExamples.


Lemma X17_closing_the_scanner_stops_scans_witness :
  isLoading (ui (App.page openedAndSubmitting)) = true
  /\ showQrScanner (ui (App.page openedAndSubmitting)) = true
  /\ scanIntervalRef (App.cam openedAndSubmitting) = Some 1%positive
  /\ activeTimers (App.cam openedAndSubmitting) = [1%positive]
  /\ inflightIds
       (App.page
          (@App.steps asciiHost
             (App.OnPage ClickCloseScanner
              :: App.ticks [(1%positive, Decoded (Some (lit "xyz")))])
             openedAndSubmitting))
     = [lit "abc"].
Proof.
  do 4 (split; [reflexivity|]).
  destruct (@X17_closing_the_scanner_stops_scans asciiHost openedAndSubmitting
              1%positive [(1%positive, Decoded (Some (lit "xyz")))]
              eq_refl eq_refl eq_refl eq_refl) as (_ & _ & Hi & _).
  unfold inflightIds. rewrite Hi. reflexivity.
Defined.

Lemma X20_orphaned_interval_still_submits_witness :
  mounted (App.cam opened) = true
  /\ showQrScanner (ui (App.page opened)) = true
  /\ truthy (lit "xyz") = true
  /\ inflightIds
       (App.page
          (@App.steps asciiHost
             [App.OnPage ClickCloseScanner;
              App.Tick (nextTimer (App.cam opened)) (Decoded (Some (lit "xyz")))]
             {| App.page := App.page opened;
                App.cam := startScanning (startScanning (App.cam opened)) |}))
     = [lit "xyz"].
Proof.
  do 3 (split; [reflexivity|]).
  destruct (@X20_orphaned_interval_still_submits asciiHost (App.page opened)
              (App.cam opened) (lit "xyz") eq_refl eq_refl eq_refl) as (_ & _ & Hi).
  exact Hi.
Defined.

End ConcreteApp.
